(** * ncdevmem: a shallow embedding of the device-memory TCP netcat

    The program is a sequence of system calls, netlink requests and shell
    commands whose answers come from the kernel.  Every function is
    embedded as a function of the answers its calls receive (an
    environment record per function, one field per call site) and it
    produces, besides its result, the list of externally visible actions
    it performed, in program order.  Diagnostic output is recorded where a
    property refers to it.  Process termination through [error(1, ...)]
    is an outcome of its own. *)

From stdpp Require Import base numbers list list_numbers strings.

Local Open Scope string_scope.
Local Open Scope list_scope.
Local Open Scope Z_scope.

(** ** Machine integers *)

(** [size_t], [uint64_t] and [__u64] arithmetic wraps modulo 2^64. *)
Definition wrap64 (z : Z) : Z := z mod 2 ^ 64.

(** The value of a 64-bit pattern read as [ssize_t]. *)
Definition sign64 (z : Z) : Z :=
  let w := wrap64 z in if w <? 2 ^ 63 then w else w - 2 ^ 64.

(** [(size_t)-1], the initial value of [endptr]. *)
Definition SIZE_MAX : Z := 2 ^ 64 - 1.

(** ** Constants of the system headers the source includes *)

Definition EAGAIN : Z := 11.
Definition EWOULDBLOCK : Z := 11.
Definition ENOMEM : Z := 12.
Definition SOL_IP : Z := 0.
Definition SOL_SOCKET : Z := 1.
Definition SOL_IPV6 : Z := 41.
Definition IP_RECVERR : Z := 11.
Definition IPV6_RECVERR : Z := 25.
Definition SCM_DEVMEM_LINEAR : Z := 98.
Definition SCM_DEVMEM_DMABUF : Z := 99.
Definition SO_EE_ORIGIN_ZEROCOPY : Z := 5.
Definition MSG_CTRUNC : Z := 8.
Definition POLLERR : Z := 8.
Definition NETDEV_QUEUE_TYPE_RX : Z := 0.

(** Constants the source defines itself. *)
Definition MAX_IOV : Z := 1024.
Definition NUM_PAGES : Z := 16000.

(** ** Data *)

(** [struct netdev_queue_id] with its presence bits. *)
Record netdev_queue_id := {
  q_present_type : bool;
  q_present_id : bool;
  q_type : Z;
  q_id : Z
}.

(** [struct dmabuf_cmsg], the payload of a devmem control message. *)
Record dmabuf_cmsg := {
  frag_offset : Z;
  frag_size : Z;
  frag_token : Z;
  cm_dmabuf_id : Z
}.

(** A control message of a received [msghdr]: its header fields and its
    data read as a [dmabuf_cmsg]; [so_dontneed_ret] is what the kernel
    answers to the [SO_DEVMEM_DONTNEED] request issued for it, if any. *)
Record cmsghdr := {
  cmsg_level : Z;
  cmsg_type : Z;
  cmsg_data : dmabuf_cmsg;
  so_dontneed_ret : Z
}.

(** [struct sock_extended_err], the fields [wait_compl] reads. *)
Record sock_extended_err := {
  ee_errno : Z;
  ee_origin : Z;
  ee_info : Z;
  ee_data : Z
}.

(** The fields of [struct memory_buffer] the engines use; [buf_mem] is the
    device region, a map from byte offsets to bytes. *)
Record memory_buffer := {
  mb_fd : Z;
  mb_size : Z;
  buf_mem : Z → Z
}.

(** One entry of the transmit payload vector: [iov_base] holds an offset
    into the dma-buf, not an address. *)
Record iovec := {
  iov_base : Z;
  iov_len : Z
}.

(** The options [main] stores in globals before it dispatches. *)
Record config := {
  max_chunk : Z;
  do_validation : Z;
  start_queue : Z;
  num_queues : Z;
  ifindex : Z;
  client_ip : bool;
  waittime_ms : Z
}.

(** ** Actions and outcomes *)

Inductive command :=
| CmdNtupleOff
| CmdNtupleOn
| CmdDeleteFilters
| CmdRssEqual (q : Z)
| CmdChannels (rx tx : Z)
| CmdFlow5 (with_client : bool) (q : Z)
| CmdFlow3 (q : Z).

Inductive event :=
| EvRun (c : command)
| EvRingsSet (idx split : Z)
| EvRingsGet (idx : Z)
| EvSleep (secs : Z)
| EvBindRx (idx fd : Z) (queues : list netdev_queue_id) (n : Z)
| EvBindTx (idx fd : Z)
| EvSockDestroy
| EvRecvmsg
| EvCopy (dst src len : Z)
| EvDontneed (token_start token_count : Z)
| EvFragLog (c : dmabuf_cmsg) (total : Z)
| EvSendmsg (iov : list iovec) (tx_id : Z)
| EvCompletion (lo hi : Z)
| EvFree
| EvClose (fd : Z)
| EvLog (msg : string).

(** How a run of a function can end other than by returning. *)
Inductive halt :=
| Exit (status : Z) (msg : string)   (* [error(1, ...)]: the process ends *)
| Pending                            (* the given answers run out: the run goes on *)
| Undefined (why : string).          (* behaviour the C standard leaves open *)

Inductive outcome (A : Type) :=
| Ok (a : A)
| Stop (h : halt).
Arguments Ok {A} a.
Arguments Stop {A} h.

(** The mutable globals: the two binding ids and the [static int errors]
    of [validate_buffer]. *)
Record globals := {
  dmabuf_id : Z;
  tx_dmabuf_id : Z;
  errors : Z
}.

Definition set_dmabuf_id (v : Z) (g : globals) : globals :=
  {| dmabuf_id := v; tx_dmabuf_id := tx_dmabuf_id g; errors := errors g |}.
Definition set_tx_dmabuf_id (v : Z) (g : globals) : globals :=
  {| dmabuf_id := dmabuf_id g; tx_dmabuf_id := v; errors := errors g |}.
Definition set_errors (v : Z) (g : globals) : globals :=
  {| dmabuf_id := dmabuf_id g; tx_dmabuf_id := tx_dmabuf_id g; errors := v |}.

(** A computation reads and writes the globals, ends with an outcome and
    emits the actions it performed. *)
Definition M (A : Type) : Type := globals → outcome A * globals * list event.

Definition Mret {A} (a : A) : M A := λ g, (Ok a, g, []).

Definition Mbind {A B} (m : M A) (k : A → M B) : M B :=
  λ g, match m g with
       | (Ok a, g1, t1) =>
           match k a g1 with
           | (r, g2, t2) => (r, g2, t1 ++ t2)
           end
       | (Stop h, g1, t1) => (Stop h, g1, t1)
       end.

#[global] Instance M_ret : MRet M := @Mret.
#[global] Instance M_bind : MBind M := λ A B k m, Mbind m k.

Definition emit (e : event) : M unit := λ g, (Ok (), g, [e]).
Definition halt_with {A} (h : halt) : M A := λ g, (Stop h, g, []).
(** [error(1, errnum, msg)] *)
Definition error {A} (status : Z) (msg : string) : M A :=
  halt_with (Exit status msg).
Definition get_globals : M globals := λ g, (Ok g, g, []).
Definition modify (f : globals → globals) : M unit := λ g, (Ok (), f g, []).
(** [if (c) error(1, ...)] *)
Definition fatal_if (c : bool) (msg : string) : M unit :=
  if c then error 1 msg else mret ().

Definition result_of {A} (x : outcome A * globals * list event) : outcome A :=
  x.1.1.
Definition globals_of {A} (x : outcome A * globals * list event) : globals :=
  x.1.2.
Definition trace_of {A} (x : outcome A * globals * list event) : list event :=
  x.2.

Definition g0 : globals := {| dmabuf_id := 0; tx_dmabuf_id := 0; errors := 0 |}.

(** ** validate_buffer *)

(** The loop body of [validate_buffer], over the bytes that remain. *)
Fixpoint validate_loop (dv : Z) (ptr : list Z) (seed : Z) : M unit :=
  match ptr with
  | [] => mret ()
  | b :: rest =>
      (if negb (b =? seed) then
         emit (EvLog "Failed validation") ;;
         g ← get_globals ;
         modify (set_errors (errors g + 1)) ;;
         fatal_if (20 <? errors g + 1) "validation failed."
       else mret ()) ;;
      let seed1 := wrap64 (seed + 1) in
      validate_loop dv rest (if seed1 =? dv then 0 else seed1)
  end.

Definition validate_buffer (cfg : config) (line : list Z) (seed : Z) : M unit :=
  if do_validation cfg =? 0 then halt_with (Undefined "seed % 0")
  else validate_loop (do_validation cfg) line (seed mod do_validation cfg).

(** The bytes of [len] consecutive offsets of a region. *)
Definition read_region (m : Z → Z) (off len : Z) : list Z :=
  (λ i, m (off + i)) <$> seqZ 0 len.

(** [memcpy]-like copy of [len] bytes from [src + soff] to [dst + doff].
    The regions are maps from offsets; whether the destination range lies
    in an allocated block is for the caller to say. *)
Definition copy_region (dst : Z → Z) (doff : Z) (src : Z → Z) (soff len : Z)
  : Z → Z :=
  λ a, if (doff <=? a) && (a <? doff + len) then src (soff + (a - doff))
       else dst a.

(** ** NIC control plane *)

(** [run_command]: the shell command is an action; [status] is what
    [system] returns for it. *)
Definition run_command (c : command) (status : Z) : M Z :=
  emit (EvRun c) ;; mret status.

(** Exit statuses of the three commands of [reset_flow_steering]. *)
Record reset_env := {
  rs_ntuple_off : Z;
  rs_ntuple_on : Z;
  rs_delete : Z
}.

Definition reset_flow_steering (e : reset_env) : M Z :=
  run_command CmdNtupleOff (rs_ntuple_off e) ;;
  run_command CmdNtupleOn (rs_ntuple_on e) ;;
  run_command CmdDeleteFilters (rs_delete e) ;;
  mret 0.

Definition tcp_data_split_str (val : Z) : string :=
  if val =? 0 then "off"
  else if val =? 1 then "auto"
  else if val =? 2 then "on"
  else "?".

(** Answers to [configure_headersplit]: whether the ethtool session could
    be created, the result of [ethtool_rings_set], and the
    [tcp_data_split] of the [ethtool_rings_get] response, if there is one. *)
Record split_env := {
  hs_sock : bool;
  hs_set_ret : Z;
  hs_get_rsp : option Z
}.

Definition split_log (v : Z) : string :=
  String.append "TCP header split: " (tcp_data_split_str v).

Definition configure_headersplit (cfg : config) (on : bool) (e : split_env)
  : M Z :=
  if negb (hs_sock e) then
    emit (EvLog "YNL: session") ;; mret (-1)
  else
    emit (EvRingsSet (ifindex cfg) (if on then 2 else 0)) ;;
    let ret := hs_set_ret e in
    (if ret <? 0 then emit (EvLog "YNL failed") else mret ()) ;;
    (if ret =? 0 then
       emit (EvRingsGet (ifindex cfg)) ;;
       match hs_get_rsp e with
       | Some v => emit (EvLog (split_log v))
       | None => mret ()
       end
     else mret ()) ;;
    emit EvSockDestroy ;;
    mret ret.

Definition configure_rss (cfg : config) (status : Z) : M Z :=
  run_command (CmdRssEqual (start_queue cfg)) status.

(** [configure_channels(unsigned int rx, unsigned int tx)]: the arguments
    are converted to [unsigned int] at the call. *)
Definition configure_channels (rx tx : Z) (status : Z) : M Z :=
  run_command (CmdChannels (rx mod 2 ^ 32) (tx mod 2 ^ 32)) status.

(** Exit statuses of the 5-tuple rule and of the 3-tuple fallback. *)
Record flow_env := {
  fl_tuple5 : Z;
  fl_tuple3 : Z
}.

Definition configure_flow_steering (cfg : config) (e : flow_env) : M Z :=
  r5 ← run_command (CmdFlow5 (client_ip cfg) (start_queue cfg)) (fl_tuple5 e) ;
  if negb (r5 =? 0) then
    r3 ← run_command (CmdFlow3 (start_queue cfg)) (fl_tuple3 e) ;
    if negb (r3 =? 0) then mret (-1) else mret 0
  else mret 0.

(** Answers to a bind request: whether the netdev session could be
    created, and the response, if any, as ([_present.id], [id]). *)
Record bind_env := {
  b_sock : bool;
  b_rsp : option (bool * Z)
}.

Definition bind_rx_queue (idx dmabuf_fd : Z) (queues : list netdev_queue_id)
    (n_queue_index : Z) (e : bind_env) : M Z :=
  if negb (b_sock e) then
    emit (EvLog "YNL: session") ;; mret (-1)
  else
    emit (EvBindRx idx dmabuf_fd queues n_queue_index) ;;
    match b_rsp e with
    | None =>
        emit (EvLog "netdev_bind_rx") ;;
        emit (EvLog "YNL failed") ;; emit EvSockDestroy ;; mret (-1)
    | Some (false, _) =>
        emit (EvLog "id not present") ;;
        emit (EvLog "YNL failed") ;; emit EvSockDestroy ;; mret (-1)
    | Some (true, id) =>
        emit (EvLog "got dmabuf id") ;;
        modify (set_dmabuf_id id) ;;
        mret 0
    end.

Definition bind_tx_queue (idx dmabuf_fd : Z) (e : bind_env) : M Z :=
  if negb (b_sock e) then
    emit (EvLog "YNL: session") ;; mret (-1)
  else
    emit (EvBindTx idx dmabuf_fd) ;;
    match b_rsp e with
    | None =>
        emit (EvLog "netdev_bind_tx") ;;
        emit (EvLog "YNL failed") ;; emit EvSockDestroy ;; mret (-1)
    | Some (false, _) =>
        emit (EvLog "id not present") ;;
        emit (EvLog "YNL failed") ;; emit EvSockDestroy ;; mret (-1)
    | Some (true, id) =>
        emit (EvLog "got tx dmabuf id") ;;
        modify (set_tx_dmabuf_id id) ;;
        mret 0
    end.

(** [create_queues]: [num_queues] RX queues from [start_queue] on
    ([main] has checked that [num_queues] is not negative). *)
Definition create_queues (cfg : config) : list netdev_queue_id :=
  (λ i, {| q_present_type := true; q_present_id := true;
           q_type := NETDEV_QUEUE_TYPE_RX; q_id := start_queue cfg + i |})
    <$> seqZ 0 (num_queues cfg).

(** [calloc(num_queues, sizeof(struct netdev_queue_id))]: entries with
    nothing present. *)
Definition zero_queue : netdev_queue_id :=
  {| q_present_type := false; q_present_id := false; q_type := 0; q_id := 0 |}.
Definition calloc_queues (cfg : config) : list netdev_queue_id :=
  replicate (Z.to_nat (num_queues cfg)) zero_queue.

(** ** Receive engine: do_server *)

(** The locals of [do_server] that live across iterations.  [tmp_mem]
    is the staging block, [malloc(mem->size)]: its bytes are the offsets
    below [mb_size mem].  The loop never compares [total_received] with
    that size; a copy whose destination range ends above it is outside
    the block in the program, and shows in the actions as an [EvCopy]
    with that range. *)
Record rx_state := {
  endptr : Z;
  page_aligned_frags : Z;
  non_page_aligned_frags : Z;
  total_received : Z;
  tmp_mem : Z → Z
}.

Definition rx_init : rx_state :=
  {| endptr := SIZE_MAX; page_aligned_frags := 0; non_page_aligned_frags := 0;
     total_received := 0; tmp_mem := λ _, 0 |}.

(** The contiguity accounting and the copy for one DMABUF fragment; the
    state before the token is returned. *)
Definition account_frag (mem : memory_buffer) (c : dmabuf_cmsg) (st : rx_state)
  : rx_state :=
  let start :=
    if endptr st =? SIZE_MAX then (frag_offset c, 0, 0)
    else if endptr st =? frag_offset c then (endptr st, 1, 0)
    else (frag_offset c, 0, 1) in
  {| endptr := wrap64 (start.1.1 + frag_size c);
     page_aligned_frags := page_aligned_frags st + start.1.2;
     non_page_aligned_frags := non_page_aligned_frags st + start.2;
     total_received := total_received st;
     tmp_mem := copy_region (tmp_mem st) (total_received st)
                  (buf_mem mem) (frag_offset c) (frag_size c) |}.

Definition add_received (n : Z) (st : rx_state) : rx_state :=
  {| endptr := endptr st;
     page_aligned_frags := page_aligned_frags st;
     non_page_aligned_frags := non_page_aligned_frags st;
     total_received := wrap64 (total_received st + n);
     tmp_mem := tmp_mem st |}.

(** The body of the control-message loop; the flag is [is_devmem]. *)
Definition handle_cmsg (mem : memory_buffer) (cm : cmsghdr) (st : rx_state)
    (is_devmem : bool) : M (rx_state * bool) :=
  if negb (cmsg_level cm =? SOL_SOCKET)
     || (negb (cmsg_type cm =? SCM_DEVMEM_DMABUF)
         && negb (cmsg_type cm =? SCM_DEVMEM_LINEAR))
  then emit (EvLog "skipping non-devmem cmsg") ;; mret (st, is_devmem)
  else
    let c := cmsg_data cm in
    if cmsg_type cm =? SCM_DEVMEM_LINEAR then
      emit (EvLog "SCM_DEVMEM_LINEAR") ;; mret (st, true)
    else
      g ← get_globals ;
      fatal_if (negb (cm_dmabuf_id c =? dmabuf_id g))
        "received on wrong dmabuf_id: flow steering error" ;;
      emit (EvCopy (total_received st) (frag_offset c) (frag_size c)) ;;
      let st1 := account_frag mem c st in
      emit (EvDontneed (frag_token c) 1) ;;
      fatal_if (negb (so_dontneed_ret cm =? 1))
        "SO_DEVMEM_DONTNEED not enough tokens" ;;
      let st2 := add_received (frag_size c) st1 in
      emit (EvFragLog c (total_received st2)) ;;
      mret (st2, true).

Fixpoint process_cmsgs (mem : memory_buffer) (cms : list cmsghdr)
    (st : rx_state) (is_devmem : bool) : M (rx_state * bool) :=
  match cms with
  | [] => mret (st, is_devmem)
  | cm :: rest =>
      r ← handle_cmsg mem cm st is_devmem ;
      process_cmsgs mem rest r.1 r.2
  end.

(** What one [recvmsg(client_fd, &msg, MSG_SOCK_DEVMEM)] returns. *)
Record recv_env := {
  rv_ret : Z;
  rv_errno : Z;
  rv_cmsgs : list cmsghdr
}.

(** The [while (1)] loop over the answers of the successive [recvmsg]
    calls; when the answers run out the call blocks. *)
Fixpoint recv_loop (mem : memory_buffer) (msgs : list recv_env)
    (st : rx_state) : M rx_state :=
  match msgs with
  | [] => halt_with Pending
  | m :: rest =>
      emit EvRecvmsg ;;
      if (rv_ret m <? 0)
         && ((rv_errno m =? EAGAIN) || (rv_errno m =? EWOULDBLOCK))
      then recv_loop mem rest st
      else if rv_ret m <? 0 then
        emit (EvLog "recvmsg: error") ;; recv_loop mem rest st
      else if rv_ret m =? 0 then
        emit (EvLog "client exited") ;; mret st
      else
        emit (EvLog "recvmsg_ret") ;;
        r ← process_cmsgs mem (rv_cmsgs m) st false ;
        fatal_if (negb r.2) "flow steering error" ;;
        recv_loop mem rest r.1
  end.

(** Answers to the calls of [do_server], in program order. *)
Record server_env := {
  se_parse : Z;
  se_reset : reset_env;
  se_split : split_env;
  se_rss : Z;
  se_flow : flow_env;
  se_bind : bind_env;
  se_malloc : bool;
  se_socket : Z;
  se_reuseport : Z;
  se_reuseaddr : Z;
  se_bind_sock : Z;
  se_listen : Z;
  se_accept : Z;
  se_msgs : list recv_env
}.

Definition enable_reuseaddr (reuseport reuseaddr : Z) : M unit :=
  emit (EvLog "setsockopt SO_REUSEPORT") ;;
  fatal_if (negb (reuseport =? 0)) "ncdevmem: [FAIL, SO_REUSEPORT]" ;;
  emit (EvLog "setsockopt SO_REUSEADDR") ;;
  fatal_if (negb (reuseaddr =? 0)) "ncdevmem: [FAIL, SO_REUSEADDR]".

(** The NIC sequence of [do_server], up to and including the bind. *)
Definition server_setup (cfg : config) (mem : memory_buffer) (e : server_env)
  : M unit :=
  fatal_if (se_parse e <? 0) "parse server address" ;;
  r ← reset_flow_steering (se_reset e) ;
  fatal_if (negb (r =? 0)) "Failed to reset flow steering" ;;
  r ← configure_headersplit cfg true (se_split e) ;
  fatal_if (negb (r =? 0)) "Failed to enable TCP header split" ;;
  r ← configure_rss cfg (se_rss e) ;
  fatal_if (negb (r =? 0)) "Failed to configure rss" ;;
  r ← configure_flow_steering cfg (se_flow e) ;
  fatal_if (negb (r =? 0)) "Failed to configure flow steering" ;;
  emit (EvSleep 1) ;;
  r ← bind_rx_queue (ifindex cfg) (mb_fd mem) (create_queues cfg)
        (num_queues cfg) (se_bind e) ;
  fatal_if (negb (r =? 0)) "Failed to bind".

(** The listening socket of [do_server], up to the accepted connection. *)
Definition server_listen (e : server_env) : M unit :=
  fatal_if (negb (se_malloc e)) "malloc failed" ;;
  emit (EvLog "socket") ;;
  fatal_if (se_socket e <? 0) "ncdevmem: [FAIL, create socket]" ;;
  enable_reuseaddr (se_reuseport e) (se_reuseaddr e) ;;
  emit (EvLog "bind") ;;
  fatal_if (negb (se_bind_sock e =? 0)) "ncdevmem: [FAIL, bind]" ;;
  emit (EvLog "listen 1") ;;
  fatal_if (negb (se_listen e =? 0)) "ncdevmem: [FAIL, listen]" ;;
  emit (EvLog "accept").

(** What [do_server] does after the loop is left. *)
Definition server_cleanup (e : server_env) : M Z :=
  emit (EvLog "ncdevmem: ok") ;;
  emit (EvLog "page_aligned_frags, non_page_aligned_frags") ;;
  emit EvFree ;;
  emit (EvClose (se_accept e)) ;;
  emit (EvClose (se_socket e)) ;;
  emit EvSockDestroy ;;
  mret 0.

Definition do_server (cfg : config) (mem : memory_buffer) (e : server_env)
  : M Z :=
  server_setup cfg mem e ;;
  server_listen e ;;
  recv_loop mem (se_msgs e) rx_init ;;
  server_cleanup e.

(** ** Self-test: run_devmem_tests *)

(** Answers to the calls of [run_devmem_tests], in program order. *)
Record tests_env := {
  te_rss : Z;
  te_split_on : split_env;
  te_bind_empty : bind_env;
  te_split_off : split_env;
  te_bind_nosplit : bind_env;
  te_split_again : split_env;
  te_bind : bind_env;
  te_channels : Z
}.

(** [mem->fd] *)
Definition mem_fd (mem : option memory_buffer) : M Z :=
  match mem with
  | None => halt_with (Undefined "mem->fd with mem == NULL")
  | Some m => mret (mb_fd m)
  end.

(** [run_devmem_tests]: the local [mem] is set to NULL and never assigned
    again, so every [mem->fd] is a read through a null pointer. *)
Definition run_devmem_tests (cfg : config) (e : tests_env) : M unit :=
  let mem : option memory_buffer := None in
  r ← configure_rss cfg (te_rss e) ;
  fatal_if (negb (r =? 0)) "rss error" ;;
  r ← configure_headersplit cfg true (te_split_on e) ;
  fatal_if (negb (r =? 0)) "Failed to configure header split" ;;
  fd ← mem_fd mem ;
  r ← bind_rx_queue (ifindex cfg) fd (calloc_queues cfg) (num_queues cfg)
        (te_bind_empty e) ;
  fatal_if (r =? 0) "Binding empty queues array should have failed" ;;
  r ← configure_headersplit cfg false (te_split_off e) ;
  fatal_if (negb (r =? 0)) "Failed to configure header split" ;;
  fd ← mem_fd mem ;
  r ← bind_rx_queue (ifindex cfg) fd (create_queues cfg) (num_queues cfg)
        (te_bind_nosplit e) ;
  fatal_if (r =? 0)
    "Configure dmabuf with header split off should have failed" ;;
  r ← configure_headersplit cfg true (te_split_again e) ;
  fatal_if (negb (r =? 0)) "Failed to configure header split" ;;
  fd ← mem_fd mem ;
  r ← bind_rx_queue (ifindex cfg) fd (create_queues cfg) (num_queues cfg)
        (te_bind e) ;
  fatal_if (negb (r =? 0)) "Failed to bind" ;;
  r ← configure_channels (num_queues cfg) (num_queues cfg - 1)
        (te_channels e) ;
  fatal_if (r =? 0) "Deactivating a bound queue should be illegal." ;;
  emit EvSockDestroy.

(** ** Transmit engine: wait_compl *)

(** A control message of the error queue. *)
Record errq_cmsg := {
  ec_level : Z;
  ec_type : Z;
  ec_serr : sock_extended_err
}.

(** Answers to the calls of one iteration of the loop of [wait_compl]:
    the clock read by the loop condition, [poll], and
    [recvmsg(fd, &msg, MSG_ERRQUEUE)]. *)
Record compl_env := {
  ce_now : Z;
  ce_poll_ret : Z;
  ce_revents : Z;
  ce_recv_ret : Z;
  ce_errno : Z;
  ce_flags : Z;
  ce_cmsgs : list errq_cmsg
}.

Definition do_poll (ret revents : Z) : M bool :=
  emit (EvLog "poll") ;;
  fatal_if (ret =? -1) "poll" ;;
  mret (negb (ret =? 0) && negb (Z.land revents POLLERR =? 0)).

(** The control-message loop of [wait_compl]: [Some (lo, hi)] when it
    returns from [wait_compl], [None] when it runs to its end. *)
Fixpoint scan_errq (cms : list errq_cmsg) : M (option (Z * Z)) :=
  match cms with
  | [] => mret None
  | cm :: rest =>
      if negb (ec_level cm =? SOL_IP) && negb (ec_level cm =? SOL_IPV6)
      then scan_errq rest
      else if (ec_level cm =? SOL_IP) && negb (ec_type cm =? IP_RECVERR)
      then scan_errq rest
      else if (ec_level cm =? SOL_IPV6) && negb (ec_type cm =? IPV6_RECVERR)
      then scan_errq rest
      else
        let serr := ec_serr cm in
        fatal_if (negb (ee_origin serr =? SO_EE_ORIGIN_ZEROCOPY))
          "wrong origin" ;;
        fatal_if (negb (ee_errno serr =? 0)) "wrong errno" ;;
        let hi := ee_data serr in
        let lo := ee_info serr in
        emit (EvCompletion lo hi) ;;
        mret (Some (lo, hi))
  end.

Fixpoint wait_loop (tstop : Z) (its : list compl_env) : M unit :=
  match its with
  | [] => halt_with Pending
  | it :: rest =>
      if negb (ce_now it <? tstop) then
        error 1 "did not receive tx completion"
      else
        ready ← do_poll (ce_poll_ret it) (ce_revents it) ;
        if negb ready then wait_loop tstop rest
        else
          emit (EvLog "recvmsg MSG_ERRQUEUE") ;;
          if ce_recv_ret it <? 0 then
            if ce_errno it =? EAGAIN then wait_loop tstop rest
            else error 1 "recvmsg(MSG_ERRQUEUE)"
          else
            fatal_if (negb (Z.land (ce_flags it) MSG_CTRUNC =? 0))
              "MSG_CTRUNC" ;;
            r ← scan_errq (ce_cmsgs it) ;
            match r with
            | Some _ => mret ()
            | None => wait_loop tstop rest
            end
  end.

(** [wait_compl]: [t0] is the clock at entry, [wt] is [waittime_ms]
    (500 in ncdevmem, 1000 in the client); [tstop] is compared as an
    unsigned 64-bit value. *)
Definition wait_compl (wt : Z) (t0 : Z) (its : list compl_env) : M unit :=
  wait_loop (wrap64 (t0 + wt)) its.

(** ** Transmit engine: do_client *)

(** The [for] loop that fills [iov[i]] for [i], [i + 1], ... ([count]
    entries). *)
Fixpoint fill_iov (chunk : Z) (count : nat) (i : Z) (iov : list iovec)
  : list iovec :=
  match count with
  | O => iov
  | S k =>
      fill_iov chunk k (i + 1)
        (<[Z.to_nat i := {| iov_base := wrap64 (i * chunk);
                             iov_len := chunk |}]> iov)
  end.

Definition set_iov_len (len : Z) (v : iovec) : iovec :=
  {| iov_base := iov_base v; iov_len := len |}.

(** The payload vector for [line_size] bytes: the array [iov] (of
    [MAX_IOV] entries) after the writes, and [msg.msg_iovlen]. *)
Definition build_iov (chunk : Z) (iov : list iovec) (line_size : Z)
  : M (list iovec * Z) :=
  if negb (chunk =? 0) then
    let n := wrap64 (line_size + chunk - 1) / chunk in
    fatal_if (MAX_IOV <? n) "can't partition bytes into maximum of 1024 chunks" ;;
    let iov1 := fill_iov chunk (Z.to_nat n) 0 iov in
    if n =? 0 then halt_with (Undefined "iov[msg.msg_iovlen - 1] with msg_iovlen == 0")
    else
      mret (alter (set_iov_len (wrap64 (line_size - (n - 1) * chunk)))
              (Z.to_nat (n - 1)) iov1, n)
  else
    mret (<[0%nat := {| iov_base := 0; iov_len := wrap64 line_size |}]> iov, 1).

(** The segments a message of [n] entries refers to. *)
Definition segments (iov : list iovec) (n : Z) : list iovec :=
  take (Z.to_nat n) iov.

(** Answers to the calls of one iteration of the producer loop:
    [getline] (read only without validation), [sendmsg], and the
    environment of the [wait_compl] that follows. *)
Record send_env := {
  sn_getline : Z;
  sn_sendmsg : Z;
  sn_clock : Z;
  sn_compl : list compl_env
}.

(** The locals of [do_client] that live across iterations. *)
Record tx_state := {
  total_sended : Z;
  line_size : Z;
  tx_iov : list iovec
}.

(** [if (total_sended + line_size >= mem->size)
      line_size = mem->size - total_sended;] *)
Definition clamp_line_size (mem : memory_buffer) (total ls : Z) : Z :=
  if mb_size mem <=? wrap64 (total + ls)
  then sign64 (mb_size mem - total) else ls.

Definition client_loop_body (cfg : config) (mem : memory_buffer)
    (it : send_env) (st : tx_state) (ls : Z) : M tx_state :=
  let ls1 := clamp_line_size mem (total_sended st) ls in
  r ← build_iov (max_chunk cfg) (tx_iov st) ls1 ;
  emit (EvLog "hipMemcpyHostToDevice") ;;
  g ← get_globals ;
  emit (EvSendmsg (segments r.1 r.2) (tx_dmabuf_id g)) ;;
  fatal_if (sn_sendmsg it <? 0) "Failed sendmsg" ;;
  wait_compl (waittime_ms cfg) (sn_clock it) (sn_compl it) ;;
  mret {| total_sended := wrap64 (total_sended st + sn_sendmsg it);
          line_size := ls1; tx_iov := r.1 |}.

(** The [while (total_sended < mem->size)] loop.  Without validation
    each iteration frees the previous line and reads the next one with
    [getline], and leaves the loop when that fails. *)
Fixpoint client_loop (cfg : config) (mem : memory_buffer)
    (its : list send_env) (st : tx_state) : M tx_state :=
  if negb (total_sended st <? mb_size mem) then mret st
  else
    match its with
    | [] => halt_with Pending
    | it :: rest =>
        if do_validation cfg =? 0 then
          emit EvFree ;;
          if sn_getline it <? 0 then mret st
          else
            st1 ← client_loop_body cfg mem it st (sn_getline it) ;
            client_loop cfg mem rest st1
        else
          st1 ← client_loop_body cfg mem it st (line_size st) ;
          client_loop cfg mem rest st1
    end.

(** Answers to the calls of [do_client] before its loop, and the
    iterations. *)
Record client_env := {
  cl_parse : Z;
  cl_socket : Z;
  cl_reuseport : Z;
  cl_reuseaddr : Z;
  cl_bindtodevice : Z;
  cl_bind_tx : bind_env;
  cl_parse_client : Z;
  cl_bind_sock : Z;
  cl_zerocopy : Z;
  cl_connect : Z;
  cl_iov : list iovec;
  cl_iters : list send_env
}.

Definition client_setup (cfg : config) (mem : memory_buffer) (e : client_env)
  : M unit :=
  fatal_if (cl_parse e <? 0) "parse server address" ;;
  emit (EvLog "socket") ;;
  fatal_if (cl_socket e <? 0) "create socket" ;;
  enable_reuseaddr (cl_reuseport e) (cl_reuseaddr e) ;;
  emit (EvLog "setsockopt SO_BINDTODEVICE") ;;
  fatal_if (negb (cl_bindtodevice e =? 0)) "bindtodevice" ;;
  r ← bind_tx_queue (ifindex cfg) (mb_fd mem) (cl_bind_tx e) ;
  fatal_if (negb (r =? 0)) "Failed to bind" ;;
  (if client_ip cfg then
     fatal_if (cl_parse_client e <? 0) "parse client address" ;;
     emit (EvLog "bind") ;;
     fatal_if (negb (cl_bind_sock e =? 0)) "bind"
   else mret ()) ;;
  emit (EvLog "setsockopt SO_ZEROCOPY") ;;
  fatal_if (negb (cl_zerocopy e =? 0)) "set sock opt" ;;
  emit (EvLog "connect") ;;
  fatal_if (negb (cl_connect e =? 0)) "connect".

Definition do_client (cfg : config) (mem : memory_buffer) (e : client_env)
  : M Z :=
  client_setup cfg mem e ;;
  let ls0 :=
    if negb (do_validation cfg =? 0) then sign64 (MAX_IOV * max_chunk cfg)
    else 0 in
  client_loop cfg mem (cl_iters e)
    {| total_sended := 0; line_size := ls0; tx_iov := cl_iov e |} ;;
  emit (EvLog "ncdevmem: tx ok") ;;
  emit EvFree ;;
  emit (EvClose (cl_socket e)) ;;
  emit EvSockDestroy ;;
  mret 0.

(** ** More of ncdevmem: rxq_num, main, parse_address, the test pattern *)

(** The value of a 32-bit pattern read as [int]. *)
Definition sign32 (z : Z) : Z :=
  let w := z mod 2 ^ 32 in if w <? 2 ^ 31 then w else w - 2 ^ 32.

(** Answers to [rxq_num]: whether the ethtool session could be created,
    and the channels response, if any, as ([rx_count], [combined_count]). *)
Record channels_env := {
  ch_sock : bool;
  ch_rsp : option (Z * Z)
}.

Definition rxq_num (e : channels_env) : M Z :=
  if negb (ch_sock e) then
    emit (EvLog "YNL: session") ;; mret (-1)
  else
    emit (EvLog "ethtool channels get") ;;
    let num :=
      match ch_rsp e with
      | Some (rx_count, combined_count) => sign32 (rx_count + combined_count)
      | None => -1
      end in
    emit EvSockDestroy ;;
    mret num.

(** What [getopt] has stored when [main] checks its options: which string
    options are present, and the two queue options (-1 when absent). *)
Record options := {
  o_ifname : bool;
  o_server_ip : bool;
  o_client_ip : bool;
  o_port : bool;
  o_is_server : bool;
  o_start_queue : Z;
  o_num_queues : Z
}.

(** What [main] goes on to run. *)
Inductive role :=
| SelfTest
| Listener
| Sender.

(** [main] from the option checks to the dispatch: the role it runs and
    the values of [start_queue] and [num_queues] it runs with.  [e1] and
    [e2] answer its calls of [rxq_num]. *)
Definition main_prepare (o : options) (e1 e2 : channels_env)
  : M (role * Z * Z) :=
  fatal_if (negb (o_ifname o)) "Missing -f argument" ;;
  if negb (o_server_ip o) && negb (o_client_ip o) then
    r ← (if (o_start_queue o <? 0) && (o_num_queues o <? 0) then
           n ← rxq_num e1 ;
           fatal_if (n <? 0) "couldn't detect number of queues" ;;
           fatal_if (n <? 2) "number of device queues is too low" ;;
           mret (Z.quot n 2, Z.quot n 2)
         else mret (o_start_queue o, o_num_queues o)) ;
    fatal_if ((r.1 <? 0) || (r.2 <? 0)) "Both -t and -q are required" ;;
    mret (SelfTest, r.1, r.2)
  else
    r ← (if (o_start_queue o <? 0) && (o_num_queues o <? 0) then
           n ← rxq_num e1 ;
           fatal_if (n <? 2) "number of device queues is too low" ;;
           n2 ← rxq_num e2 ;
           fatal_if (n2 - 1 <? 0) "couldn't detect number of queues" ;;
           emit (EvLog "using queues") ;;
           mret (n2 - 1, 1)
         else mret (o_start_queue o, o_num_queues o)) ;
    fatal_if (r.1 <? 0) "Missing -t argument" ;;
    fatal_if (r.2 <? 0) "Missing -q argument" ;;
    fatal_if (negb (o_server_ip o)) "Missing -s argument" ;;
    fatal_if (negb (o_port o)) "Missing -p argument" ;;
    mret (if o_is_server o then Listener else Sender, r.1, r.2).

(** Answers of [inet_pton] for the address string: the 16 bytes of the
    IPv6 reading and the 4 bytes of the IPv4 reading, when the string
    parses as such. *)
Record pton_env := {
  pton6 : option (list Z);
  pton4 : option (list Z)
}.

(** The fields of [struct sockaddr_in6] that [parse_address] writes:
    the port and the address, as bytes in network order. *)
Record sockaddr_in6 := {
  sin6_port : list Z;
  sin6_addr : list Z
}.

(** Bytes [bs] stored at offset [off] of [a]. *)
Definition store (off : nat) (bs : list Z) (a : list Z) : list Z :=
  take off a ++ bs ++ drop (off + length bs) a.

(** [htons(port)] as the two bytes in memory. *)
Definition htons_bytes (port : Z) : list Z :=
  [(port mod 65536) / 256; port mod 256].

(** [parse_address]: the return value and the address structure, whose
    address bytes are [addr0] before the call. *)
Definition parse_address (e : pton_env) (port : Z) (addr0 : list Z)
  : Z * sockaddr_in6 :=
  match pton6 e with
  | Some a => (0, {| sin6_port := htons_bytes port; sin6_addr := a |})
  | None =>
      match pton4 e with
      | None => (-1, {| sin6_port := htons_bytes port; sin6_addr := addr0 |})
      | Some v =>
          let a1 := store 12 v addr0 in
          let a2 := store 0 [0; 0; 0; 0] a1 in
          let a3 := store 4 [0; 0; 0; 0] a2 in
          let a4 := store 8 [0; 0] a3 in
          let a5 := store 10 [255; 255] a4 in
          (0, {| sin6_port := htons_bytes port; sin6_addr := a5 |})
      end
  end.

(** [IN6_IS_ADDR_V4MAPPED]: the address is ::ffff:a.b.c.d. *)
Definition IN6_IS_ADDR_V4MAPPED (a : list Z) : bool :=
  bool_decide (take 12 a = [0; 0; 0; 0; 0; 0; 0; 0; 0; 0; 255; 255]).

(** The flow type [configure_flow_steering] passes to ethtool. *)
Definition flow_type (sin : sockaddr_in6) : string :=
  if IN6_IS_ADDR_V4MAPPED (sin6_addr sin) then "tcp4" else "tcp6".

(** The test pattern [do_client] generates under validation:
    [line[i] = i % do_validation], read back as unsigned bytes. *)
Definition validation_line (dv size : Z) : list Z :=
  (λ i, (i mod dv) mod 256) <$> seqZ 0 size.

(** ** The client of client.c: client_dma_start *)

Definition CHUNK_SIZE : Z := 4096.
Definition MAX_CHUNK_SIZE : Z := CHUNK_SIZE * MAX_IOV.

(** [writesize] for the bytes that remain after [total]. *)
Definition dma_writesize (total buffer_size : Z) : Z :=
  if wrap64 (total + MAX_CHUNK_SIZE) <? buffer_size then MAX_CHUNK_SIZE
  else wrap64 (buffer_size - total).

Fixpoint dma_fill (total : Z) (count : nat) (i : Z) (iov : list iovec)
  : list iovec :=
  match count with
  | O => iov
  | S k =>
      dma_fill total k (i + 1)
        (<[Z.to_nat i := {| iov_base := wrap64 (total + wrap64 (i * CHUNK_SIZE));
                             iov_len := CHUNK_SIZE |}]> iov)
  end.

(** The payload vector of one iteration of [client_dma_start]: the array
    after the writes and [msg.msg_iovlen]; [None] when the last write
    falls outside the array. *)
Definition dma_build_iov (total buffer_size : Z) (iov : list iovec)
  : option (list iovec * Z) :=
  let writesize := dma_writesize total buffer_size in
  let n := wrap64 (writesize + CHUNK_SIZE - 1) / CHUNK_SIZE in
  let iov1 := dma_fill total (Z.to_nat n) 0 iov in
  if (n =? 0) || (Z.of_nat (length iov) <? n) then None
  else
    Some (alter (set_iov_len (wrap64 (writesize - (n - 1) * CHUNK_SIZE)))
            (Z.to_nat (n - 1)) iov1, n).

(** * Vocabulary of the statements and concrete inputs *)

Definition is_dmabuf (cm : cmsghdr) : Prop :=
  cmsg_level cm = SOL_SOCKET ∧ cmsg_type cm = SCM_DEVMEM_DMABUF.

Definition is_linear (cm : cmsghdr) : Prop :=
  cmsg_level cm = SOL_SOCKET ∧ cmsg_type cm = SCM_DEVMEM_LINEAR.

(** An action on a fragment is justified by binding [id] when it is the
    copy, the token return or the log record of a DMABUF descriptor of
    [cms] that carries [id]. *)
Definition frag_event_ok (id : Z) (cms : list cmsghdr) (ev : event) : Prop :=
  match ev with
  | EvCopy _ src len =>
      ∃ cm, cm ∈ cms ∧ is_dmabuf cm ∧ cm_dmabuf_id (cmsg_data cm) = id
            ∧ frag_offset (cmsg_data cm) = src
            ∧ frag_size (cmsg_data cm) = len
  | EvDontneed start count =>
      ∃ cm, cm ∈ cms ∧ is_dmabuf cm ∧ cm_dmabuf_id (cmsg_data cm) = id
            ∧ frag_token (cmsg_data cm) = start ∧ count = 1
  | EvFragLog c _ =>
      ∃ cm, cm ∈ cms ∧ is_dmabuf cm ∧ cm_dmabuf_id (cmsg_data cm) = id
            ∧ cmsg_data cm = c
  | _ => True
  end.

Definition all_cmsgs (msgs : list recv_env) : list cmsghdr :=
  concat (rv_cmsgs <$> msgs).

(** [prepend t x]: the run [x] after the actions [t]. *)
Definition prepend {A} (t : list event) (x : outcome A * globals * list event)
  : outcome A * globals * list event :=
  (x.1.1, x.1.2, t ++ x.2).

(** The observed value, as [configure_headersplit] reports it. *)
Definition readback_log (e : split_env) : list event :=
  match hs_get_rsp e with
  | Some v => [EvLog (split_log v)]
  | None => []
  end.

Definition headersplit_trace (cfg : config) (on : bool) (e : split_env)
  : list event :=
  if hs_sock e then
    [EvRingsSet (ifindex cfg) (if on then 2 else 0)]
    ++ (if hs_set_ret e <? 0 then [EvLog "YNL failed"] else [])
    ++ (if hs_set_ret e =? 0 then EvRingsGet (ifindex cfg) :: readback_log e
        else [])
    ++ [EvSockDestroy]
  else [EvLog "YNL: session"].

Definition flow_ret (e : flow_env) : Z :=
  if fl_tuple5 e =? 0 then 0 else if fl_tuple3 e =? 0 then 0 else -1.

Definition flow_trace (cfg : config) (e : flow_env) : list event :=
  EvRun (CmdFlow5 (client_ip cfg) (start_queue cfg))
  :: (if fl_tuple5 e =? 0 then [] else [EvRun (CmdFlow3 (start_queue cfg))]).

(** The id a bind response carries, when the bind succeeds. *)
Definition bind_id (e : bind_env) : option Z :=
  if b_sock e then
    match b_rsp e with
    | Some (true, id) => Some id
    | _ => None
    end
  else None.

Definition bind_ret (e : bind_env) : Z :=
  match bind_id e with Some _ => 0 | None => -1 end.

Definition bind_failure_log (what : string) (e : bind_env) : list event :=
  match b_rsp e with
  | None => [EvLog what; EvLog "YNL failed"; EvSockDestroy]
  | Some (false, _) => [EvLog "id not present"; EvLog "YNL failed"; EvSockDestroy]
  | Some (true, _) => [EvLog "got dmabuf id"]
  end.

Definition reset_trace : list event :=
  [EvRun CmdNtupleOff; EvRun CmdNtupleOn; EvRun CmdDeleteFilters].

Definition bind_rx_trace (idx fd : Z) (queues : list netdev_queue_id) (n : Z)
    (e : bind_env) : list event :=
  if b_sock e
  then EvBindRx idx fd queues n :: bind_failure_log "netdev_bind_rx" e
  else [EvLog "YNL: session"].

Definition split_ret (e : split_env) : Z :=
  if hs_sock e then hs_set_ret e else -1.

(** The steps of the NIC sequence and the stream receive, as they show in
    a trace. *)
Inductive nic_step :=
| StepReset
| StepSplit (v : Z)
| StepRss
| StepFlow
| StepSettle
| StepBind
| StepRecv.

Definition step_of (ev : event) : option nic_step :=
  match ev with
  | EvRun CmdNtupleOff | EvRun CmdNtupleOn | EvRun CmdDeleteFilters =>
      Some StepReset
  | EvRingsSet _ v => Some (StepSplit v)
  | EvRun (CmdRssEqual _) => Some StepRss
  | EvRun (CmdFlow5 _ _) | EvRun (CmdFlow3 _) => Some StepFlow
  | EvSleep _ => Some StepSettle
  | EvBindRx _ _ _ _ => Some StepBind
  | EvRecvmsg => Some StepRecv
  | _ => None
  end.

Definition steps (t : list event) : list nic_step := omap step_of t.

(** An action that is no step of the sequence. *)
Definition silent (ev : event) : Prop := step_of ev = None.

Definition no_recv (t : list event) : Prop := Forall (λ ev, ev ≠ EvRecvmsg) t.

Definition set_reset (r : reset_env) (e : server_env) : server_env :=
  {| se_parse := se_parse e; se_reset := r; se_split := se_split e;
     se_rss := se_rss e; se_flow := se_flow e; se_bind := se_bind e;
     se_malloc := se_malloc e; se_socket := se_socket e;
     se_reuseport := se_reuseport e; se_reuseaddr := se_reuseaddr e;
     se_bind_sock := se_bind_sock e; se_listen := se_listen e;
     se_accept := se_accept e; se_msgs := se_msgs e |}.

(** Actions of the control plane and of the socket set-up: none touches a
    fragment. *)
Definition control_event (ev : event) : Prop :=
  match ev with
  | EvCopy _ _ _ | EvDontneed _ _ | EvFragLog _ _ | EvRecvmsg
  | EvSendmsg _ _ | EvCompletion _ _ => False
  | _ => True
  end.

Definition cleanup_trace (e : server_env) : list event :=
  [EvLog "ncdevmem: ok"; EvLog "page_aligned_frags, non_page_aligned_frags";
   EvFree; EvClose (se_accept e); EvClose (se_socket e); EvSockDestroy].

(** A listener started with [-v 7]. *)
Definition cfg_v7 : config :=
  {| max_chunk := 0; do_validation := 7; start_queue := 7; num_queues := 1;
     ifindex := 3; client_ip := false; waittime_ms := 500 |}.

(** A device buffer filled with the byte 9, which the sequence
    0, 1, ..., 6 never contains. *)
Definition mem_nines : memory_buffer :=
  {| mb_fd := 5; mb_size := 4096 * NUM_PAGES; buf_mem := λ _, 9 |}.

Definition frag (id off size token ret : Z) : cmsghdr :=
  {| cmsg_level := SOL_SOCKET; cmsg_type := SCM_DEVMEM_DMABUF;
     cmsg_data := {| frag_offset := off; frag_size := size;
                     frag_token := token; cm_dmabuf_id := id |};
     so_dontneed_ret := ret |}.

Definition peer_closed : recv_env :=
  {| rv_ret := 0; rv_errno := 0; rv_cmsgs := [] |}.

Definition g_bound (id : Z) : globals :=
  {| dmabuf_id := id; tx_dmabuf_id := 0; errors := 0 |}.

Definition set_get_rsp (rsp : option Z) (e : split_env) : split_env :=
  {| hs_sock := hs_sock e; hs_set_ret := hs_set_ret e; hs_get_rsp := rsp |}.

Definition cfg0 : config :=
  {| max_chunk := 0; do_validation := 0; start_queue := 7; num_queues := 1;
     ifindex := 3; client_ip := false; waittime_ms := 500 |}.

(** The set request succeeds and the read-back answers [v]. *)
Definition split_answers (v : Z) : split_env :=
  {| hs_sock := true; hs_set_ret := 0; hs_get_rsp := Some v |}.

(** The kernel accepts the bind and answers [id]. *)
Definition bind_answers (id : Z) : bind_env :=
  {| b_sock := true; b_rsp := Some (true, id) |}.

(** The kernel refuses the bind. *)
Definition bind_refused : bind_env := {| b_sock := true; b_rsp := None |}.

Definition mem0 : memory_buffer :=
  {| mb_fd := 5; mb_size := 4096 * NUM_PAGES; buf_mem := λ a, a mod 7 |}.







(** A chunked payload: [n] segments at the consecutive multiples of [C],
    of length [C] but for the last, which holds the remainder. *)
Definition chunked (C L n : Z) : list iovec :=
  (λ i, {| iov_base := i * C;
           iov_len := if i =? n - 1 then L - (n - 1) * C else C |})
    <$> seqZ 0 n.

Definition reset_statuses (a b c : Z) : reset_env :=
  {| rs_ntuple_off := a; rs_ntuple_on := b; rs_delete := c |}.

(** A listener whose NIC sequence and socket set-up succeed, bound with
    id [id], and which then receives [msgs]. *)
Definition server_env0 (bind : bind_env) (msgs : list recv_env) : server_env :=
  {| se_parse := 0; se_reset := reset_statuses 1 0 1;
     se_split := split_answers 2; se_rss := 0;
     se_flow := {| fl_tuple5 := 1; fl_tuple3 := 0 |};
     se_bind := bind; se_malloc := true; se_socket := 4;
     se_reuseport := 0; se_reuseaddr := 0; se_bind_sock := 0;
     se_listen := 0; se_accept := 6; se_msgs := msgs |}.

Definition linear (size : Z) : cmsghdr :=
  {| cmsg_level := SOL_SOCKET; cmsg_type := SCM_DEVMEM_LINEAR;
     cmsg_data := {| frag_offset := 0; frag_size := size; frag_token := 0;
                     cm_dmabuf_id := 0 |};
     so_dontneed_ret := 0 |}.

Definition received (ret errno : Z) (cms : list cmsghdr) : recv_env :=
  {| rv_ret := ret; rv_errno := errno; rv_cmsgs := cms |}.

Definition msgs0 : list recv_env :=
  [received 30 0 [linear 12; frag 7 0 30 1 1]; peer_closed].

(** A zero-copy completion [lo, hi] on the error queue, read at time
    [now]. *)
Definition completion_at (now lo hi : Z) : compl_env :=
  {| ce_now := now; ce_poll_ret := 1; ce_revents := POLLERR;
     ce_recv_ret := 0; ce_errno := 0; ce_flags := 0;
     ce_cmsgs :=
       [ {| ec_level := SOL_SOCKET; ec_type := 0;
            ec_serr := {| ee_errno := 0; ee_origin := 0; ee_info := 0;
                          ee_data := 0 |} |};
         {| ec_level := SOL_IP; ec_type := IP_RECVERR;
            ec_serr := {| ee_errno := 0; ee_origin := SO_EE_ORIGIN_ZEROCOPY;
                          ee_info := lo; ee_data := hi |} |} ] |}.








Definition send_env0 : send_env :=
  {| sn_getline := 6; sn_sendmsg := 6; sn_clock := 50;
     sn_compl := [completion_at 100 0 0] |}.


Definition iov0 : list iovec :=
  replicate (Z.to_nat MAX_IOV) {| iov_base := 0; iov_len := 0 |}.

(** The step of the expected byte in [validate_buffer]. *)
Definition next_seed (dv seed : Z) : Z :=
  let s := wrap64 (seed + 1) in if s =? dv then 0 else s.

(** The number of bytes of [ptr] that differ from the sequence that
    starts at [seed]. *)
Fixpoint mismatches (dv : Z) (ptr : list Z) (seed : Z) : Z :=
  match ptr with
  | [] => 0
  | b :: rest =>
      (if b =? seed then 0 else 1) + mismatches dv rest (next_seed dv seed)
  end.

(** The total length of a payload vector. *)
Definition total_len (v : list iovec) : Z :=
  foldr (λ s acc, iov_len s + acc) 0 v.

(** The segments of [v] lie one after the other from offset [start]. *)
Fixpoint contiguous_from (start : Z) (v : list iovec) : Prop :=
  match v with
  | [] => True
  | s :: rest => iov_base s = start ∧ contiguous_from (start + iov_len s) rest
  end.

(** The expected byte [i] positions after [seed]. *)
Fixpoint seed_after (dv : Z) (i : nat) (seed : Z) : Z :=
  match i with
  | O => seed
  | S k => seed_after dv k (next_seed dv seed)
  end.

Definition cfg_v (dv : Z) : config :=
  {| max_chunk := 4096; do_validation := dv; start_queue := 7;
     num_queues := 1; ifindex := 3; client_ip := false;
     waittime_ms := 500 |}.

(** A DMABUF descriptor of the active binding whose token return
    succeeds. *)
Definition good_frag (g : globals) (cm : cmsghdr) : Prop :=
  is_dmabuf cm ∧ cm_dmabuf_id (cmsg_data cm) = dmabuf_id g
  ∧ so_dontneed_ret cm = 1.

(** The state after such a descriptor. *)
Definition rx_step (mem : memory_buffer) (st : rx_state) (cm : cmsghdr)
  : rx_state :=
  add_received (frag_size (cmsg_data cm)) (account_frag mem (cmsg_data cm) st).



(** The number of descriptors that start where their predecessor, which
    ended at [prev_end], ended. *)
Fixpoint adjacent (prev_end : Z) (frags : list cmsghdr) : Z :=
  match frags with
  | [] => 0
  | cm :: rest =>
      (if prev_end =? frag_offset (cmsg_data cm) then 1 else 0)
      + adjacent (frag_offset (cmsg_data cm) + frag_size (cmsg_data cm)) rest
  end.

Definition mem_ramp : memory_buffer :=
  {| mb_fd := 5; mb_size := 4096 * NUM_PAGES; buf_mem := λ a, a mod 251 |}.


(** A control message that is no devmem descriptor. *)
Definition not_devmem (cm : cmsghdr) : Prop :=
  cmsg_level cm ≠ SOL_SOCKET
  ∨ (cmsg_type cm ≠ SCM_DEVMEM_DMABUF ∧ cmsg_type cm ≠ SCM_DEVMEM_LINEAR).

Definition timestamp_cmsg : cmsghdr :=
  {| cmsg_level := SOL_SOCKET; cmsg_type := 29;
     cmsg_data := {| frag_offset := 0; frag_size := 0; frag_token := 0;
                     cm_dmabuf_id := 0 |};
     so_dontneed_ret := 0 |}.

Definition rxq_value (e : channels_env) : Z :=
  if ch_sock e then
    match ch_rsp e with
    | Some (rx_count, combined_count) => sign32 (rx_count + combined_count)
    | None => -1
    end
  else -1.

Definition channels (rx combined : Z) : channels_env :=
  {| ch_sock := true; ch_rsp := Some (rx, combined) |}.

Definition opts (server_ip : bool) (t q : Z) : options :=
  {| o_ifname := true; o_server_ip := server_ip; o_client_ip := false;
     o_port := true; o_is_server := true; o_start_queue := t;
     o_num_queues := q |}.

(** An action other than a [sendmsg]. *)
Definition not_send (ev : event) : Prop :=
  match ev with EvSendmsg _ _ => False | _ => True end.

(** A [sendmsg] carries the id [id]; [None] allows no [sendmsg]. *)
Definition sends_with (id : option Z) (ev : event) : Prop :=
  match ev with EvSendmsg _ i => id = Some i | _ => True end.

(** The payload of a [sendmsg] is one run of bytes from offset 0 that
    lies inside the device buffer. *)
Definition in_buffer (mem : memory_buffer) (ev : event) : Prop :=
  match ev with
  | EvSendmsg segs _ =>
      contiguous_from 0 segs ∧ 0 ≤ total_len segs ≤ mb_size mem
  | _ => True
  end.

(** What the locals of [do_client] satisfy at the head of its loop. *)
Definition tx_inv (st : tx_state) : Prop :=
  0 ≤ total_sended st ∧ 0 ≤ line_size st < 2 ^ 63
  ∧ length (tx_iov st) = Z.to_nat MAX_IOV.

Definition mem_small : memory_buffer :=
  {| mb_fd := 5; mb_size := 6; buf_mem := λ _, 0 |}.

Definition client_env0 (bind : bind_env) : client_env :=
  {| cl_parse := 0; cl_socket := 4; cl_reuseport := 0; cl_reuseaddr := 0;
     cl_bindtodevice := 0; cl_bind_tx := bind; cl_parse_client := 0;
     cl_bind_sock := 0; cl_zerocopy := 0; cl_connect := 0;
     cl_iov := iov0; cl_iters := [send_env0] |}.

Definition cfg_chunk4 : config :=
  {| max_chunk := 4; do_validation := 7; start_queue := 7; num_queues := 1;
     ifindex := 3; client_ip := false; waittime_ms := 500 |}.

(** * Properties *)

(** ** Running computations *)

Ltac munfold :=
  unfold mbind, mret, M_bind, M_ret, Mbind, Mret, emit, fatal_if, error,
    halt_with, get_globals, modify in *.

Lemma run_bind {A B} (m : M A) (k : A → M B) (g : globals) :
  (m ≫= k) g =
  match m g with
  | (Ok a, g1, t1) =>
      match k a g1 with (r, g2, t2) => (r, g2, t1 ++ t2) end
  | (Stop h, g1, t1) => (Stop h, g1, t1)
  end.
Proof. reflexivity. Qed.

(** A property of the emitted actions and of the globals passes through
    a bind. *)
Lemma bind_invariant {A B} (P : event → Prop) (m : M A) (k : A → M B)
    (g : globals) :
  Forall P (trace_of (m g)) →
  (∀ a, result_of (m g) = Ok a →
        Forall P (trace_of (k a (globals_of (m g))))) →
  Forall P (trace_of ((m ≫= k) g)).
Proof.
  unfold trace_of, result_of, globals_of. intros Hm Hk. rewrite run_bind.
  destruct (m g) as [[[a|h] g1] t1]; simpl in *; [|done].
  specialize (Hk a eq_refl).
  destruct (k a g1) as [[r g2] t2]; simpl in *.
  apply Forall_app. by split.
Qed.

Lemma bind_globals {A B} (m : M A) (k : A → M B) (g : globals) :
  globals_of (m g) = g →
  (∀ a, globals_of (k a g) = g) →
  globals_of ((m ≫= k) g) = g.
Proof.
  unfold globals_of. intros Hm Hk. rewrite run_bind.
  destruct (m g) as [[[a|h] g1] t1]; simpl in *; [|done].
  subst g1. specialize (Hk a).
  by destruct (k a g) as [[r g2] t2].
Qed.

(** ** The control-message loop of the receive engine *)

Lemma frag_event_ok_mono id cms cms' ev :
  cms ⊆ cms' → frag_event_ok id cms ev → frag_event_ok id cms' ev.
Proof.
  intros Hsub. destruct ev; simpl; try done;
    intros (cm & Hin & H); exists cm; split; auto.
Qed.

(** The four ways [handle_cmsg] can go, as equations. *)
Lemma handle_cmsg_other mem cm st d g :
  cmsg_level cm ≠ SOL_SOCKET
  ∨ (cmsg_type cm ≠ SCM_DEVMEM_DMABUF ∧ cmsg_type cm ≠ SCM_DEVMEM_LINEAR) →
  handle_cmsg mem cm st d g
  = (Ok (st, d), g, [EvLog "skipping non-devmem cmsg"]).
Proof.
  intros H. unfold handle_cmsg.
  destruct (negb (cmsg_level cm =? SOL_SOCKET)
            || negb (cmsg_type cm =? SCM_DEVMEM_DMABUF)
               && negb (cmsg_type cm =? SCM_DEVMEM_LINEAR)) eqn:E; [done|].
  exfalso. apply orb_false_iff in E as [E1 E2].
  apply negb_false_iff, Z.eqb_eq in E1.
  destruct H as [H|[H1 H2]]; [done|].
  apply andb_false_iff in E2 as [E2|E2];
    apply negb_false_iff, Z.eqb_eq in E2; done.
Qed.

Lemma handle_cmsg_linear mem cm st d g :
  is_linear cm →
  handle_cmsg mem cm st d g = (Ok (st, true), g, [EvLog "SCM_DEVMEM_LINEAR"]).
Proof. intros [Hl Ht]. unfold handle_cmsg. by rewrite Hl, Ht. Qed.

Lemma handle_cmsg_wrong_id mem cm st d g :
  is_dmabuf cm → cm_dmabuf_id (cmsg_data cm) ≠ dmabuf_id g →
  handle_cmsg mem cm st d g
  = (Stop (Exit 1 "received on wrong dmabuf_id: flow steering error"), g, []).
Proof.
  intros [Hl Ht] Hid. unfold handle_cmsg. rewrite Hl, Ht. simpl.
  apply Z.eqb_neq in Hid. munfold. by rewrite Hid.
Qed.

Lemma handle_cmsg_dmabuf mem cm st d g :
  is_dmabuf cm → cm_dmabuf_id (cmsg_data cm) = dmabuf_id g →
  handle_cmsg mem cm st d g
  = let c := cmsg_data cm in
    let copy := EvCopy (total_received st) (frag_offset c) (frag_size c) in
    let st2 := add_received (frag_size c) (account_frag mem c st) in
    if so_dontneed_ret cm =? 1 then
      (Ok (st2, true), g,
       [copy; EvDontneed (frag_token c) 1; EvFragLog c (total_received st2)])
    else
      (Stop (Exit 1 "SO_DEVMEM_DONTNEED not enough tokens"), g,
       [copy; EvDontneed (frag_token c) 1]).
Proof.
  intros [Hl Ht] Hid. unfold handle_cmsg. rewrite Hl, Ht. simpl.
  apply Z.eqb_eq in Hid. munfold. rewrite Hid. simpl.
  by destruct (so_dontneed_ret cm =? 1).
Qed.

(** Every control message falls in one of the four cases. *)
Lemma cmsg_cases cm g :
  (cmsg_level cm ≠ SOL_SOCKET
   ∨ (cmsg_type cm ≠ SCM_DEVMEM_DMABUF ∧ cmsg_type cm ≠ SCM_DEVMEM_LINEAR))
  ∨ is_linear cm
  ∨ (is_dmabuf cm ∧ cm_dmabuf_id (cmsg_data cm) ≠ dmabuf_id g)
  ∨ (is_dmabuf cm ∧ cm_dmabuf_id (cmsg_data cm) = dmabuf_id g).
Proof.
  unfold is_linear, is_dmabuf.
  destruct (decide (cmsg_level cm = SOL_SOCKET)); [|by left; left].
  destruct (decide (cmsg_type cm = SCM_DEVMEM_LINEAR)); [by right; left|].
  destruct (decide (cmsg_type cm = SCM_DEVMEM_DMABUF)); [|by left; right].
  destruct (decide (cm_dmabuf_id (cmsg_data cm) = dmabuf_id g));
    [by right; right; right|by right; right; left].
Qed.

Lemma handle_cmsg_events mem cm st d g :
  Forall (frag_event_ok (dmabuf_id g) [cm]) (trace_of (handle_cmsg mem cm st d g))
  ∧ globals_of (handle_cmsg mem cm st d g) = g.
Proof.
  destruct (cmsg_cases cm g) as [H|[H|[[H Hid]|[H Hid]]]].
  - rewrite handle_cmsg_other by done. split; [|done]. by repeat constructor.
  - rewrite handle_cmsg_linear by done. split; [|done]. by repeat constructor.
  - rewrite handle_cmsg_wrong_id by done. split; [|done]. constructor.
  - rewrite handle_cmsg_dmabuf by done. simpl.
    assert (Hin : cm ∈ [cm]) by apply list_elem_of_here.
    destruct (so_dontneed_ret cm =? 1); (split; [|done]);
      repeat constructor; simpl; exists cm; auto.
Qed.

Lemma process_cmsgs_events mem cms st d g :
  Forall (frag_event_ok (dmabuf_id g) cms) (trace_of (process_cmsgs mem cms st d g))
  ∧ globals_of (process_cmsgs mem cms st d g) = g.
Proof.
  revert st d. induction cms as [|cm rest IH]; intros st d; simpl.
  - split; [constructor|done].
  - destruct (handle_cmsg_events mem cm st d g) as [Ht Hg]. split.
    + apply bind_invariant.
      * eapply Forall_impl; [exact Ht|]. intros ev.
        apply frag_event_ok_mono. intros x Hx.
        apply list_elem_of_singleton in Hx as ->. apply list_elem_of_here.
      * intros a _. rewrite Hg.
        eapply Forall_impl; [apply (IH a.1 a.2)|]. intros ev.
        apply frag_event_ok_mono. by apply list_subseteq_cons.
    + apply bind_globals; [done|]. intros a. apply IH.
Qed.

Lemma trace_emit_bind {A} (e : event) (k : M A) (g : globals) :
  (emit e ;; k) g = ((k g).1.1, (k g).1.2, e :: (k g).2).
Proof. rewrite run_bind. simpl. by destruct (k g) as [[r g2] t2]. Qed.

Lemma recv_loop_events mem msgs st g :
  Forall (frag_event_ok (dmabuf_id g) (all_cmsgs msgs))
    (trace_of (recv_loop mem msgs st g))
  ∧ globals_of (recv_loop mem msgs st g) = g.
Proof.
  revert st. induction msgs as [|m rest IH]; intros st.
  - split; [constructor|done].
  - assert (Hrest : ∀ st', Forall (frag_event_ok (dmabuf_id g)
                                     (all_cmsgs (m :: rest)))
                             (trace_of (recv_loop mem rest st' g))).
    { intros st'. eapply Forall_impl; [apply IH|]. intros ev.
      apply frag_event_ok_mono. unfold all_cmsgs. simpl.
      by apply list_subseteq_app_r. }
    cbn [recv_loop]. rewrite trace_emit_bind.
    unfold trace_of, globals_of in *. simpl.
    destruct ((rv_ret m <? 0)
              && ((rv_errno m =? EAGAIN) || (rv_errno m =? EWOULDBLOCK))).
    { split; [constructor; [done|apply Hrest]|apply IH]. }
    destruct (rv_ret m <? 0).
    { rewrite trace_emit_bind. simpl.
      split; [repeat (constructor; [done|]); apply Hrest|apply IH]. }
    destruct (rv_ret m =? 0).
    { split; [|done]. by repeat constructor. }
    rewrite trace_emit_bind. simpl.
    destruct (process_cmsgs_events mem (rv_cmsgs m) st false g) as [Ht Hg].
    split.
    + repeat (constructor; [done|]).
      apply (bind_invariant (frag_event_ok (dmabuf_id g) (all_cmsgs (m :: rest)))).
      * eapply Forall_impl; [exact Ht|]. intros ev.
        apply frag_event_ok_mono. unfold all_cmsgs. simpl.
        by apply list_subseteq_app_l.
      * intros a _. rewrite Hg. unfold trace_of.
        rewrite run_bind. munfold. destruct (negb a.2); simpl; [constructor|].
        specialize (Hrest a.1). unfold trace_of in Hrest.
        by destruct (recv_loop mem rest a.1 g) as [[r g2] t2].
    + apply (bind_globals (process_cmsgs mem (rv_cmsgs m) st false)); [done|].
      intros a. unfold globals_of. rewrite run_bind. munfold.
      destruct (negb a.2); simpl; [done|].
      destruct (IH a.1) as [_ IHg]. unfold globals_of in IHg.
      by destruct (recv_loop mem rest a.1 g) as [[r g2] t2].
Qed.

(** ** Sequencing *)

Lemma run_bind_ok {A B} (m : M A) (k : A → M B) g a g1 t1 :
  m g = (Ok a, g1, t1) → (m ≫= k) g = prepend t1 (k a g1).
Proof.
  intros H. rewrite run_bind, H. unfold prepend.
  by destruct (k a g1) as [[r g2] t2].
Qed.

Lemma run_bind_stop {A B} (m : M A) (k : A → M B) g h g1 t1 :
  m g = (Stop h, g1, t1) → (m ≫= k) g = (Stop h, g1, t1).
Proof. intros H. by rewrite run_bind, H. Qed.

(** [x = m(); if (bad(x)) error(1, 0, msg); k] *)
Lemma run_check {B} (m : M Z) (bad : Z → bool) (msg : string) (k : M B)
    g r g1 t1 :
  m g = (Ok r, g1, t1) →
  (x ← m ; fatal_if (bad x) msg ;; k) g
  = if bad r then (Stop (Exit 1 msg), g1, t1) else prepend t1 (k g1).
Proof.
  intros H. rewrite (run_bind_ok _ _ _ _ _ _ H). unfold prepend, fatal_if.
  destruct (bad r).
  - rewrite run_bind. munfold. simpl. by rewrite app_nil_r.
  - rewrite run_bind. munfold. simpl. by destruct (k g1) as [[r2 g2] t2].
Qed.

Lemma prepend_result {A} t (x : outcome A * globals * list event) :
  result_of (prepend t x) = result_of x.
Proof. done. Qed.

Lemma prepend_globals {A} t (x : outcome A * globals * list event) :
  globals_of (prepend t x) = globals_of x.
Proof. done. Qed.

Lemma prepend_trace {A} t (x : outcome A * globals * list event) :
  trace_of (prepend t x) = t ++ trace_of x.
Proof. done. Qed.

(** ** The NIC control plane in closed form *)

Lemma reset_flow_steering_run e g :
  reset_flow_steering e g
  = (Ok 0, g, [EvRun CmdNtupleOff; EvRun CmdNtupleOn; EvRun CmdDeleteFilters]).
Proof. reflexivity. Qed.

Lemma configure_headersplit_run cfg on e g :
  configure_headersplit cfg on e g
  = (Ok (if hs_sock e then hs_set_ret e else -1), g,
     headersplit_trace cfg on e).
Proof.
  unfold configure_headersplit, headersplit_trace, readback_log.
  destruct (hs_sock e); [|done]. simpl.
  destruct (hs_set_ret e <? 0), (hs_set_ret e =? 0), (hs_get_rsp e); done.
Qed.

Lemma configure_rss_run cfg status g :
  configure_rss cfg status g
  = (Ok status, g, [EvRun (CmdRssEqual (start_queue cfg))]).
Proof. reflexivity. Qed.

Lemma configure_flow_steering_run cfg e g :
  configure_flow_steering cfg e g = (Ok (flow_ret e), g, flow_trace cfg e).
Proof.
  unfold configure_flow_steering, flow_ret, flow_trace, run_command.
  rewrite run_bind. simpl.
  destruct (fl_tuple5 e =? 0); [done|]. simpl.
  rewrite run_bind. simpl. by destruct (fl_tuple3 e =? 0).
Qed.

Lemma bind_rx_queue_run idx fd queues n e g :
  bind_rx_queue idx fd queues n e g
  = (Ok (bind_ret e),
     (match bind_id e with Some id => set_dmabuf_id id g | None => g end),
     if b_sock e
     then EvBindRx idx fd queues n :: bind_failure_log "netdev_bind_rx" e
     else [EvLog "YNL: session"]).
Proof.
  unfold bind_rx_queue, bind_ret, bind_id, bind_failure_log.
  destruct (b_sock e); [|done]. simpl.
  destruct (b_rsp e) as [[[] id]|]; done.
Qed.

Lemma run_check_nz {B} (m : M Z) (msg : string) (k : M B) g r g1 t1 :
  m g = (Ok r, g1, t1) →
  (x ← m ; fatal_if (negb (x =? 0)) msg ;; k) g
  = if r =? 0 then prepend t1 (k g1) else (Stop (Exit 1 msg), g1, t1).
Proof.
  intros H. rewrite (run_check m (λ x, negb (x =? 0)) msg k g r g1 t1 H).
  by destruct (r =? 0).
Qed.

Lemma run_fatal_if {B} (c : bool) (msg : string) (k : M B) g :
  (fatal_if c msg ;; k) g = if c then (Stop (Exit 1 msg), g, []) else k g.
Proof.
  rewrite run_bind. unfold fatal_if. destruct c; [done|].
  munfold. simpl. by destruct (k g) as [[r g2] t2].
Qed.

Lemma run_emit {A} (e : event) (k : M A) g :
  (emit e ;; k) g = prepend [e] (k g).
Proof. rewrite trace_emit_bind. done. Qed.

(** ** The NIC sequence of the receive engine *)

(** [server_setup] in closed form: the first step that fails ends the
    process, with the actions performed so far. *)
Lemma server_setup_run cfg mem e g :
  server_setup cfg mem e g
  = let t1 := reset_trace ++ headersplit_trace cfg true (se_split e) in
    let t2 := t1 ++ [EvRun (CmdRssEqual (start_queue cfg))] in
    let t3 := t2 ++ flow_trace cfg (se_flow e) in
    let t4 := t3 ++ EvSleep 1
                :: bind_rx_trace (ifindex cfg) (mb_fd mem) (create_queues cfg)
                     (num_queues cfg) (se_bind e) in
    if se_parse e <? 0 then (Stop (Exit 1 "parse server address"), g, [])
    else if negb (split_ret (se_split e) =? 0) then
      (Stop (Exit 1 "Failed to enable TCP header split"), g, t1)
    else if negb (se_rss e =? 0) then
      (Stop (Exit 1 "Failed to configure rss"), g, t2)
    else if negb (flow_ret (se_flow e) =? 0) then
      (Stop (Exit 1 "Failed to configure flow steering"), g, t3)
    else
      match bind_id (se_bind e) with
      | None => (Stop (Exit 1 "Failed to bind"), g, t4)
      | Some id => (Ok (), set_dmabuf_id id g, t4)
      end.
Proof.
  unfold server_setup. rewrite run_fatal_if.
  destruct (se_parse e <? 0); [done|]. cbv zeta.
  rewrite (run_check_nz _ _ _ _ _ _ _ (reset_flow_steering_run _ _)).
  change (0 =? 0) with true. cbv iota.
  rewrite (run_check_nz _ _ _ _ _ _ _ (configure_headersplit_run _ _ _ _)).
  fold (split_ret (se_split e)).
  destruct (split_ret (se_split e) =? 0); [|done].
  rewrite (run_check_nz _ _ _ _ _ _ _ (configure_rss_run _ _ _)).
  destruct (se_rss e =? 0); [|by rewrite <- app_assoc].
  rewrite (run_check_nz _ _ _ _ _ _ _ (configure_flow_steering_run _ _ _)).
  destruct (flow_ret (se_flow e) =? 0);
    [|unfold prepend; simpl; by rewrite <- !app_assoc].
  rewrite run_emit.
  rewrite (run_bind_ok _ _ _ _ _ _ (bind_rx_queue_run _ _ _ _ _ _)).
  unfold bind_ret, bind_rx_trace.
  destruct (bind_id (se_bind e)) as [id|]; unfold prepend; munfold; simpl;
    rewrite ?app_nil_r, <- ?app_assoc; simpl; done.
Qed.

Lemma steps_app t1 t2 : steps (t1 ++ t2) = steps t1 ++ steps t2.
Proof. apply omap_app. Qed.

Lemma steps_silent t : Forall silent t → steps t = [].
Proof.
  induction 1 as [|ev t Hev _ IH]; [done|].
  unfold steps in *. simpl. unfold silent in Hev. by rewrite Hev.
Qed.

Lemma forall_emit (P : event → Prop) e g : P e → Forall P (trace_of (emit e g)).
Proof. intros H. by constructor. Qed.

Lemma forall_fatal_if (P : event → Prop) c msg g :
  Forall P (trace_of (fatal_if c msg g)).
Proof. destruct c; constructor. Qed.

Lemma forall_mret {A} (P : event → Prop) (a : A) g :
  Forall P (trace_of ((mret a : M A) g)).
Proof. constructor. Qed.

(** Traces built from [emit], [fatal_if] and [mret] only. *)
Ltac trace_forall :=
  repeat first
    [ apply forall_emit; done
    | apply forall_fatal_if
    | apply forall_mret
    | apply bind_invariant; [|intros ? _] ].

Lemma server_listen_silent e g : Forall silent (trace_of (server_listen e g)).
Proof. unfold server_listen, enable_reuseaddr. trace_forall. Qed.

Lemma server_cleanup_run e g :
  server_cleanup e g
  = (Ok 0, g,
     [EvLog "ncdevmem: ok"; EvLog "page_aligned_frags, non_page_aligned_frags";
      EvFree; EvClose (se_accept e); EvClose (se_socket e); EvSockDestroy]).
Proof. reflexivity. Qed.

Lemma handle_cmsg_silent mem cm st d g :
  Forall silent (trace_of (handle_cmsg mem cm st d g)).
Proof.
  destruct (cmsg_cases cm g) as [H|[H|[[H Hid]|[H Hid]]]].
  - rewrite handle_cmsg_other by done. by repeat constructor.
  - rewrite handle_cmsg_linear by done. by repeat constructor.
  - rewrite handle_cmsg_wrong_id by done. constructor.
  - rewrite handle_cmsg_dmabuf by done. simpl.
    destruct (so_dontneed_ret cm =? 1); by repeat constructor.
Qed.

Lemma process_cmsgs_silent mem cms st d g :
  Forall silent (trace_of (process_cmsgs mem cms st d g)).
Proof.
  revert st d g. induction cms as [|cm rest IH]; intros st d g; simpl.
  - constructor.
  - apply bind_invariant; [apply handle_cmsg_silent|]. intros a _. apply IH.
Qed.

(** A run of the receive loop issues receives and no step of the NIC
    sequence. *)
Lemma recv_loop_steps mem msgs st g :
  ∃ n, steps (trace_of (recv_loop mem msgs st g)) = replicate n StepRecv.
Proof.
  revert st g. induction msgs as [|m rest IH]; intros st g.
  - by exists 0%nat.
  - cbn [recv_loop]. rewrite run_emit, prepend_trace, steps_app.
    change (steps [EvRecvmsg]) with [StepRecv].
    destruct ((rv_ret m <? 0)
              && ((rv_errno m =? EAGAIN) || (rv_errno m =? EWOULDBLOCK))).
    { destruct (IH st g) as [n Hn]. exists (S n). by rewrite Hn. }
    destruct (rv_ret m <? 0).
    { destruct (IH st g) as [n Hn]. exists (S n).
      rewrite run_emit, prepend_trace, steps_app, Hn. done. }
    destruct (rv_ret m =? 0).
    { by exists 1%nat. }
    rewrite run_emit, prepend_trace, steps_app. simpl.
    rewrite run_bind.
    pose proof (process_cmsgs_silent mem (rv_cmsgs m) st false g) as Hs.
    apply steps_silent in Hs. unfold trace_of in *.
    destruct (process_cmsgs mem (rv_cmsgs m) st false g) as [[[a|h] g1] t1];
      simpl in *.
    + rewrite run_fatal_if. destruct (negb a.2).
      * exists 1%nat. simpl. by rewrite app_nil_r, Hs.
      * destruct (IH a.1 g1) as [n Hn]. exists (S n).
        destruct (recv_loop mem rest a.1 g1) as [[r g2] t2]. simpl in *.
        by rewrite steps_app, Hs, Hn.
    + exists 1%nat. by rewrite Hs.
Qed.

Lemma run_bind_prepend {A B} (m : M A) (k : A → M B) (g : globals) :
  (m ≫= k) g =
  match m g with
  | (Ok a, g1, t1) => prepend t1 (k a g1)
  | (Stop h, g1, t1) => (Stop h, g1, t1)
  end.
Proof.
  rewrite run_bind. destruct (m g) as [[[a|h] g1] t1]; [|done].
  unfold prepend. by destruct (k a g1) as [[r g2] t2].
Qed.

Lemma no_recv_not_in t : no_recv t → EvRecvmsg ∉ t.
Proof.
  intros H Hin. unfold no_recv in H. rewrite Forall_forall in H.
  by apply (H _ Hin).
Qed.

Lemma no_recv_app t1 t2 : no_recv t1 → no_recv t2 → no_recv (t1 ++ t2).
Proof. intros H1 H2. apply Forall_app. by split. Qed.

Lemma no_recv_headersplit cfg on e : no_recv (headersplit_trace cfg on e).
Proof.
  unfold headersplit_trace, readback_log, no_recv.
  destruct (hs_sock e), (hs_set_ret e <? 0), (hs_set_ret e =? 0),
    (hs_get_rsp e); by repeat constructor.
Qed.

Lemma no_recv_flow cfg e : no_recv (flow_trace cfg e).
Proof.
  unfold flow_trace, no_recv.
  destruct (fl_tuple5 e =? 0); by repeat constructor.
Qed.

Lemma no_recv_bind idx fd qs n e : no_recv (bind_rx_trace idx fd qs n e).
Proof.
  unfold bind_rx_trace, bind_failure_log, no_recv.
  destruct (b_sock e), (b_rsp e) as [[[] ?]|]; by repeat constructor.
Qed.

Lemma no_recv_reset : no_recv reset_trace.
Proof. by repeat constructor. Qed.

Lemma steps_headersplit_ok cfg e :
  split_ret e = 0 → steps (headersplit_trace cfg true e) = [StepSplit 2].
Proof.
  unfold split_ret, headersplit_trace, readback_log.
  destruct (hs_sock e); [|done]. intros ->. simpl.
  by destruct (hs_get_rsp e).
Qed.

Lemma steps_flow cfg e :
  ∃ k, (k = 1 ∨ k = 2)%nat ∧ steps (flow_trace cfg e) = replicate k StepFlow.
Proof.
  unfold flow_trace. destruct (fl_tuple5 e =? 0).
  - exists 1%nat. by split; [left|].
  - exists 2%nat. by split; [right|].
Qed.

Lemma steps_bind_ok idx fd qs n e id :
  bind_id e = Some id → steps (bind_rx_trace idx fd qs n e) = [StepBind].
Proof.
  unfold bind_id, bind_rx_trace, bind_failure_log.
  destruct (b_sock e); [|done]. by destruct (b_rsp e) as [[[] ?]|].
Qed.

Lemma recv_in_steps t : EvRecvmsg ∈ t → StepRecv ∈ steps t.
Proof.
  intros H. unfold steps. apply list_elem_of_omap. by exists EvRecvmsg.
Qed.

(** The four fallible steps of the sequence, by what they return. *)
Lemma split_ret_result cfg on e g :
  result_of (configure_headersplit cfg on e g) = Ok (split_ret e).
Proof. by rewrite configure_headersplit_run. Qed.

Lemma bind_ret_result idx fd qs n e g :
  result_of (bind_rx_queue idx fd qs n e g) = Ok (bind_ret e).
Proof. by rewrite bind_rx_queue_run. Qed.

(** Either a step of the sequence fails and the process ends before any
    receive, or the sequence has run in its order. *)
Lemma server_setup_cases cfg mem e g :
  (∃ msg t, server_setup cfg mem e g = (Stop (Exit 1 msg), g, t) ∧ no_recv t
            ∧ (se_parse e < 0 ∨ split_ret (se_split e) ≠ 0 ∨ se_rss e ≠ 0
               ∨ flow_ret (se_flow e) ≠ 0 ∨ bind_id (se_bind e) = None))
  ∨ (∃ id t k,
       server_setup cfg mem e g = (Ok (), set_dmabuf_id id g, t)
       ∧ bind_id (se_bind e) = Some id
       ∧ split_ret (se_split e) = 0 ∧ se_rss e = 0 ∧ flow_ret (se_flow e) = 0
       ∧ (k = 1 ∨ k = 2)%nat
       ∧ steps t = replicate 3 StepReset ++ [StepSplit 2; StepRss]
                   ++ replicate k StepFlow ++ [StepSettle; StepBind]).
Proof.
  rewrite server_setup_run. cbv zeta.
  destruct (se_parse e <? 0) eqn:Ep.
  { left. do 2 eexists. split; [done|]. split; [constructor|]. left. lia. }
  destruct (split_ret (se_split e) =? 0) eqn:Es; cbn [negb].
  2:{ left. do 2 eexists. split; [done|]. split.
      - apply no_recv_app; [apply no_recv_reset|apply no_recv_headersplit].
      - right; left. lia. }
  destruct (se_rss e =? 0) eqn:Er; cbn [negb].
  2:{ left. do 2 eexists. split; [done|]. split.
      - repeat apply no_recv_app;
          [apply no_recv_reset|apply no_recv_headersplit|by repeat constructor].
      - right; right; left. lia. }
  destruct (flow_ret (se_flow e) =? 0) eqn:Ef; cbn [negb].
  2:{ left. do 2 eexists. split; [done|]. split.
      - repeat apply no_recv_app;
          [apply no_recv_reset|apply no_recv_headersplit
          |by repeat constructor|apply no_recv_flow].
      - right; right; right; left. lia. }
  destruct (bind_id (se_bind e)) as [id|] eqn:Eb.
  2:{ left. do 2 eexists. split; [done|]. split.
      - repeat apply no_recv_app;
          [apply no_recv_reset|apply no_recv_headersplit
          |by repeat constructor|apply no_recv_flow|].
        constructor; [done|apply no_recv_bind].
      - by right; right; right; right. }
  right. apply Z.eqb_eq in Es, Er, Ef.
  destruct (steps_flow cfg (se_flow e)) as (k & Hk & Hflow).
  exists id. eexists. exists k. split; [done|]. repeat (split; [done|]).
  rewrite !steps_app, (steps_headersplit_ok _ _ Es), Hflow.
  change (steps reset_trace) with (replicate 3 StepReset).
  change (steps (EvSleep 1 :: ?t)) with (StepSettle :: steps t).
  rewrite (steps_bind_ok _ _ _ _ _ _ Eb). by rewrite <- !app_assoc.
Qed.

(** After the bind, the only steps are receives. *)
Lemma after_setup_steps mem e g :
  ∃ n, steps (trace_of ((server_listen e ;;
                         recv_loop mem (se_msgs e) rx_init ;;
                         server_cleanup e) g))
       = replicate n StepRecv.
Proof.
  rewrite run_bind_prepend.
  pose proof (server_listen_silent e g) as Hl.
  destruct (server_listen e g) as [[[[]|h] g2] t2];
    unfold trace_of in Hl; simpl in Hl.
  2:{ exists 0%nat. by apply steps_silent. }
  rewrite prepend_trace, steps_app, (steps_silent _ Hl), run_bind_prepend.
  destruct (recv_loop_steps mem (se_msgs e) rx_init g2) as [n Hn].
  exists n.
  destruct (recv_loop mem (se_msgs e) rx_init g2) as [[[a|h] g3] t3];
    unfold trace_of in Hn; simpl in Hn; [|done].
  rewrite prepend_trace, steps_app, Hn, server_cleanup_run.
  by rewrite app_nil_r.
Qed.

(** C8: when [do_server] issues a stream receive, the steps it has
    performed are, in this order and with nothing else in between: the
    three commands of the flow-steering reset, header split set to on (2),
    the RSS command, the flow rule (one command, or two with the 3-tuple
    fallback), the settling wait, the RX bind, and only then receives.
    When header split, RSS, the flow rule or the bind fails, the process
    ends with exit status 1 and no receive is issued.  The exit statuses
    of the commands of the reset have no influence on the run. *)
Theorem C8_nic_sequence_order (cfg : config) (mem : memory_buffer)
    (e : server_env) (g : globals) :
  (EvRecvmsg ∈ trace_of (do_server cfg mem e g) →
   ∃ k n, (k = 1 ∨ k = 2)%nat ∧ (1 ≤ n)%nat ∧
     steps (trace_of (do_server cfg mem e g))
     = replicate 3 StepReset ++ [StepSplit 2; StepRss]
       ++ replicate k StepFlow ++ [StepSettle; StepBind]
       ++ replicate n StepRecv)
  ∧ (result_of (configure_headersplit cfg true (se_split e) g) ≠ Ok 0
     ∨ result_of (configure_rss cfg (se_rss e) g) ≠ Ok 0
     ∨ result_of (configure_flow_steering cfg (se_flow e) g) ≠ Ok 0
     ∨ result_of (bind_rx_queue (ifindex cfg) (mb_fd mem) (create_queues cfg)
                    (num_queues cfg) (se_bind e) g) ≠ Ok 0 →
     ∃ msg, result_of (do_server cfg mem e g) = Stop (Exit 1 msg)
            ∧ EvRecvmsg ∉ trace_of (do_server cfg mem e g))
  ∧ (∀ r, do_server cfg mem (set_reset r e) g = do_server cfg mem e g).
Proof.
  split; [|split].
  - unfold do_server. rewrite run_bind_prepend.
    destruct (server_setup_cases cfg mem e g)
      as [(msg & t & -> & Hno & _)|(id & t & k & -> & _ & _ & _ & _ & Hk & Ht)].
    { intros H. by apply no_recv_not_in in H. }
    destruct (after_setup_steps mem e (set_dmabuf_id id g)) as [n Hn].
    rewrite prepend_trace. intros Hin. apply recv_in_steps in Hin.
    revert Hin. rewrite steps_app, Ht, Hn. intros Hin.
    exists k, n. split; [done|]. split; [|by rewrite <- !app_assoc].
    destruct n as [|n]; [|lia]. exfalso. revert Hin.
    destruct Hk as [-> | ->]; simpl; intros H;
      repeat (apply elem_of_cons in H as [H|H]; [done|]);
      by apply elem_of_nil in H.
  - rewrite split_ret_result, bind_ret_result, configure_rss_run,
      configure_flow_steering_run. unfold result_of at 1 2. simpl.
    intros Hfail.
    unfold do_server. rewrite run_bind_prepend.
    destruct (server_setup_cases cfg mem e g)
      as [(msg & t & -> & Hno & _)|(id & t & k & _ & Hb & Hs & Hr & Hf & _)].
    { exists msg. split; [done|]. by apply no_recv_not_in. }
    exfalso. unfold bind_ret in Hfail. rewrite Hb in Hfail.
    destruct Hfail as [H|[H|[H|H]]]; apply H; congruence.
  - intros r. unfold do_server. rewrite !run_bind_prepend, !server_setup_run.
    done.
Qed.

(** ** Fragments and the active binding *)

Lemma control_frag_ok id cms ev : control_event ev → frag_event_ok id cms ev.
Proof. by destruct ev. Qed.

Lemma control_headersplit cfg on e g :
  Forall control_event (trace_of (configure_headersplit cfg on e g)).
Proof.
  rewrite configure_headersplit_run.
  unfold trace_of, headersplit_trace, readback_log. simpl.
  destruct (hs_sock e), (hs_set_ret e <? 0), (hs_set_ret e =? 0),
    (hs_get_rsp e); by repeat constructor.
Qed.

Lemma control_flow cfg e g :
  Forall control_event (trace_of (configure_flow_steering cfg e g)).
Proof.
  rewrite configure_flow_steering_run. unfold trace_of, flow_trace. simpl.
  destruct (fl_tuple5 e =? 0); by repeat constructor.
Qed.

Lemma control_bind_rx idx fd qs n e g :
  Forall control_event (trace_of (bind_rx_queue idx fd qs n e g)).
Proof.
  rewrite bind_rx_queue_run. unfold trace_of, bind_failure_log. simpl.
  destruct (b_sock e), (b_rsp e) as [[[] ?]|]; by repeat constructor.
Qed.

Lemma control_reset e g :
  Forall control_event (trace_of (reset_flow_steering e g)).
Proof. by repeat constructor. Qed.

Lemma control_rss cfg s g :
  Forall control_event (trace_of (configure_rss cfg s g)).
Proof. by repeat constructor. Qed.

Lemma control_channels rx tx s g :
  Forall control_event (trace_of (configure_channels rx tx s g)).
Proof. by repeat constructor. Qed.

Ltac control_trace :=
  repeat first
    [ apply forall_emit; done
    | apply forall_fatal_if
    | apply forall_mret
    | apply control_reset
    | apply control_headersplit
    | apply control_rss
    | apply control_channels
    | apply control_flow
    | apply control_bind_rx
    | apply bind_invariant; [|intros ? _] ].

Lemma server_setup_control cfg mem e g :
  Forall control_event (trace_of (server_setup cfg mem e g)).
Proof. unfold server_setup. control_trace. Qed.

Lemma server_listen_control e g :
  Forall control_event (trace_of (server_listen e g)).
Proof. unfold server_listen, enable_reuseaddr. control_trace. Qed.

Lemma server_cleanup_control e g :
  Forall control_event (trace_of (server_cleanup e g)).
Proof. unfold server_cleanup. control_trace. Qed.

Lemma globals_emit e g : globals_of (emit e g) = g.
Proof. done. Qed.

Lemma globals_fatal_if c msg g : globals_of (fatal_if c msg g) = g.
Proof. by destruct c. Qed.

Lemma globals_mret {A} (a : A) g : globals_of ((mret a : M A) g) = g.
Proof. done. Qed.

Ltac keeps_globals :=
  repeat first
    [ apply globals_emit
    | apply globals_fatal_if
    | apply globals_mret
    | apply bind_globals; [|intros ?] ].

Lemma server_listen_globals e g : globals_of (server_listen e g) = g.
Proof. unfold server_listen, enable_reuseaddr. keeps_globals. Qed.

(** When the NIC sequence succeeds, the global [dmabuf_id] is the id of
    the bind response. *)
Lemma server_setup_binds cfg mem e g :
  result_of (server_setup cfg mem e g) = Ok () →
  ∃ id, bind_id (se_bind e) = Some id
        ∧ globals_of (server_setup cfg mem e g) = set_dmabuf_id id g.
Proof.
  destruct (server_setup_cases cfg mem e g)
    as [(msg & t & -> & _)|(id & t & k & -> & Hb & _)]; [done|].
  intros _. by exists id.
Qed.

(** The fragment actions of a whole run of [do_server] belong to
    descriptors that carry [id], whenever the globals hold [id] once the
    NIC sequence is through. *)
Lemma do_server_frag_events cfg mem e g id :
  (result_of (server_setup cfg mem e g) = Ok () →
   dmabuf_id (globals_of (server_setup cfg mem e g)) = id) →
  Forall (frag_event_ok id (all_cmsgs (se_msgs e)))
    (trace_of (do_server cfg mem e g)).
Proof.
  intros Hid. unfold do_server.
  apply bind_invariant.
  { eapply Forall_impl; [apply server_setup_control|].
    intros ev. apply control_frag_ok. }
  intros [] Hok. specialize (Hid Hok).
  set (g1 := globals_of (server_setup cfg mem e g)) in *.
  apply bind_invariant.
  { eapply Forall_impl; [apply server_listen_control|].
    intros ev. apply control_frag_ok. }
  intros [] _. rewrite server_listen_globals.
  apply bind_invariant.
  { rewrite <- Hid. apply recv_loop_events. }
  intros st _.
  eapply Forall_impl; [apply server_cleanup_control|].
  intros ev. apply control_frag_ok.
Qed.

(** C1: a DMABUF descriptor whose [dmabuf_id] differs from the global
    [dmabuf_id] ends the process ("received on wrong dmabuf_id: flow
    steering error") before anything is done with the fragment; and in a
    whole run of [do_server] whose bind returned [id], every device copy,
    every token return and every fragment added to [total_received] (its
    log record) belongs to a DMABUF descriptor of a received message that
    carries [id].  Without a successful bind no fragment is touched. *)
Theorem C1_fragments_match_binding (cfg : config) (mem : memory_buffer)
    (e : server_env) (g : globals) :
  (∀ cm st d g',
     is_dmabuf cm → cm_dmabuf_id (cmsg_data cm) ≠ dmabuf_id g' →
     handle_cmsg mem cm st d g'
     = (Stop (Exit 1 "received on wrong dmabuf_id: flow steering error"),
        g', []))
  ∧ (∀ id, bind_id (se_bind e) = Some id →
       Forall (frag_event_ok id (all_cmsgs (se_msgs e)))
         (trace_of (do_server cfg mem e g)))
  ∧ (bind_id (se_bind e) = None →
       Forall (frag_event_ok 0 []) (trace_of (do_server cfg mem e g))).
Proof.
  split; [|split].
  - intros cm st d g'. apply handle_cmsg_wrong_id.
  - intros id Hb. apply do_server_frag_events. intros Hok.
    destruct (server_setup_binds cfg mem e g Hok) as (id' & Hb' & ->).
    simpl. congruence.
  - intros Hb. unfold do_server. rewrite run_bind_prepend.
    pose proof (server_setup_control cfg mem e g) as Hc.
    destruct (server_setup_cases cfg mem e g)
      as [(msg & t & Hrun & _)|(id & t & k & _ & Hb' & _)]; [|congruence].
    rewrite Hrun in *. unfold trace_of in *. simpl in *.
    eapply Forall_impl; [exact Hc|]. intros ev. apply control_frag_ok.
Qed.

(** ** Dispatch on the result of the stream receive *)

(** C6: what an iteration of the receive loop does with the result of
    [recvmsg].  Negative with [EAGAIN] or [EWOULDBLOCK]: the next
    iteration, state unchanged.  Negative otherwise: the error is logged
    and the loop goes on, state unchanged.  Zero: the loop is left, and
    [do_server] frees the staging memory, closes both sockets, destroys
    the netlink session and returns 0.  Positive: the control messages
    are processed. *)
Theorem C6_recv_dispatch (mem : memory_buffer) (m : recv_env)
    (rest : list recv_env) (st : rx_state) (g : globals) (e : server_env) :
  (rv_ret m < 0 → rv_errno m = EAGAIN ∨ rv_errno m = EWOULDBLOCK →
   recv_loop mem (m :: rest) st g
   = prepend [EvRecvmsg] (recv_loop mem rest st g))
  ∧ (rv_ret m < 0 → rv_errno m ≠ EAGAIN → rv_errno m ≠ EWOULDBLOCK →
     recv_loop mem (m :: rest) st g
     = prepend [EvRecvmsg; EvLog "recvmsg: error"] (recv_loop mem rest st g))
  ∧ (rv_ret m = 0 →
     recv_loop mem (m :: rest) st g
     = (Ok st, g, [EvRecvmsg; EvLog "client exited"])
     ∧ (recv_loop mem (m :: rest) st ;; server_cleanup e) g
       = (Ok 0, g, [EvRecvmsg; EvLog "client exited"] ++ cleanup_trace e))
  ∧ (0 < rv_ret m →
     recv_loop mem (m :: rest) st g
     = prepend [EvRecvmsg; EvLog "recvmsg_ret"]
         ((r ← process_cmsgs mem (rv_cmsgs m) st false ;
           fatal_if (negb r.2) "flow steering error" ;;
           recv_loop mem rest r.1) g)).
Proof.
  split; [|split; [|split]].
  - intros Hneg Herr. cbn [recv_loop]. rewrite run_emit.
    apply Z.ltb_lt in Hneg. rewrite Hneg.
    destruct Herr as [-> | ->]; done.
  - intros Hneg H1 H2. cbn [recv_loop]. rewrite run_emit.
    apply Z.ltb_lt in Hneg. apply Z.eqb_neq in H1, H2.
    rewrite Hneg, H1, H2. cbn [orb andb]. by rewrite run_emit.
  - intros H0. split.
    + cbn [recv_loop]. rewrite run_emit. by rewrite H0.
    + rewrite run_bind_prepend. cbn [recv_loop].
      rewrite run_emit. by rewrite H0.
  - intros Hpos. cbn [recv_loop]. rewrite run_emit.
    assert (H1 : (rv_ret m <? 0) = false) by (apply Z.ltb_ge; lia).
    assert (H2 : (rv_ret m =? 0) = false) by (apply Z.eqb_neq; lia).
    rewrite H1, H2. cbn [andb]. rewrite run_emit.
    unfold prepend. simpl. done.
Qed.

(** ** LINEAR descriptors *)

Lemma process_cmsgs_linear mem cms st d g :
  Forall is_linear cms →
  process_cmsgs mem cms st d g
  = (Ok (st, match cms with [] => d | _ => true end), g,
     replicate (length cms) (EvLog "SCM_DEVMEM_LINEAR")).
Proof.
  intros H. revert d. induction H as [|cm rest Hcm _ IH]; intros d; [done|].
  cbn [process_cmsgs].
  rewrite (run_bind_ok _ _ _ _ _ _ (handle_cmsg_linear mem cm st d g Hcm)).
  simpl. rewrite IH. unfold prepend. simpl. by destruct rest.
Qed.

(** C10: a LINEAR descriptor sets [is_devmem] and nothing else: the
    state ([total_received], the staging memory, the contiguity counters)
    is unchanged, and no copy and no token return is performed.  A
    received message whose control messages are all LINEAR descriptors
    therefore passes the [is_devmem] check and the loop goes on with the
    state it had, whereas a message without any control message is the
    fatal "flow steering error". *)
Theorem C10_linear_marks_devmem_and_is_skipped (mem : memory_buffer) :
  (∀ cm st d g,
     is_linear cm →
     handle_cmsg mem cm st d g
     = (Ok (st, true), g, [EvLog "SCM_DEVMEM_LINEAR"]))
  ∧ (∀ m rest st g,
       0 < rv_ret m → rv_cmsgs m ≠ [] → Forall is_linear (rv_cmsgs m) →
       recv_loop mem (m :: rest) st g
       = prepend
           (EvRecvmsg :: EvLog "recvmsg_ret"
            :: replicate (length (rv_cmsgs m)) (EvLog "SCM_DEVMEM_LINEAR"))
           (recv_loop mem rest st g))
  ∧ (∀ m rest st g,
       0 < rv_ret m → rv_cmsgs m = [] →
       recv_loop mem (m :: rest) st g
       = (Stop (Exit 1 "flow steering error"), g,
          [EvRecvmsg; EvLog "recvmsg_ret"])).
Proof.
  split; [|split].
  - intros cm st d g. apply handle_cmsg_linear.
  - intros m rest st g Hpos Hne Hlin. cbn [recv_loop]. rewrite run_emit.
    assert (H1 : (rv_ret m <? 0) = false) by (apply Z.ltb_ge; lia).
    assert (H2 : (rv_ret m =? 0) = false) by (apply Z.eqb_neq; lia).
    rewrite H1, H2. cbn [andb]. rewrite run_emit.
    rewrite (run_bind_ok _ _ _ _ _ _
               (process_cmsgs_linear mem _ st false g Hlin)).
    destruct (rv_cmsgs m) as [|cm cms] eqn:E; [done|].
    cbn [snd fst negb]. rewrite run_fatal_if.
    unfold prepend. simpl. done.
  - intros m rest st g Hpos Hnil. cbn [recv_loop]. rewrite run_emit.
    assert (H1 : (rv_ret m <? 0) = false) by (apply Z.ltb_ge; lia).
    assert (H2 : (rv_ret m =? 0) = false) by (apply Z.eqb_neq; lia).
    rewrite H1, H2, Hnil. cbn [andb]. rewrite run_emit. done.
Qed.

(** ** Returning the fragment token *)

(** C3 (as amended): for a DMABUF descriptor of the active binding, the
    token return counts as done exactly when [setsockopt] returns 1, the
    number of tokens released ([token_count] is 1): then the fragment is
    added to [total_received] and the loop goes on.  Every other return
    value, 0 included, ends the process with "SO_DEVMEM_DONTNEED not
    enough tokens", after the copy and the request. *)
Theorem C3_token_return_expects_one (mem : memory_buffer) (cm : cmsghdr)
    (st : rx_state) (d : bool) (g : globals) :
  is_dmabuf cm → cm_dmabuf_id (cmsg_data cm) = dmabuf_id g →
  let c := cmsg_data cm in
  let copy := EvCopy (total_received st) (frag_offset c) (frag_size c) in
  let st2 := add_received (frag_size c) (account_frag mem c st) in
  (so_dontneed_ret cm = 1 →
   handle_cmsg mem cm st d g
   = (Ok (st2, true), g,
      [copy; EvDontneed (frag_token c) 1; EvFragLog c (total_received st2)]))
  ∧ (so_dontneed_ret cm ≠ 1 →
     handle_cmsg mem cm st d g
     = (Stop (Exit 1 "SO_DEVMEM_DONTNEED not enough tokens"), g,
        [copy; EvDontneed (frag_token c) 1])).
Proof.
  intros Hd Hid. cbv zeta. rewrite handle_cmsg_dmabuf by done. cbv zeta.
  split; intros H.
  - by rewrite H.
  - apply Z.eqb_neq in H. by rewrite H.
Qed.

(** ** Validation *)

(** The receive loop leaves the globals alone: in particular the error
    count of [validate_buffer] never moves. *)
Lemma recv_loop_globals mem msgs st g :
  globals_of (recv_loop mem msgs st g) = g.
Proof. apply recv_loop_events. Qed.

(** C2: the receive loop does not validate.  For every input it leaves
    the error count of [validate_buffer] untouched.  With validation
    enabled ([-v 7]) and a 30-byte fragment of bytes that all differ from
    the expected sequence, the loop processes the fragment and leaves
    normally when the peer closes, whereas [validate_buffer] on the
    received region, with the cumulative count 0 as seed, ends the process
    with "validation failed." at the 21st mismatch. *)
Theorem C2_receive_loop_does_not_validate :
  (∀ mem msgs st g,
     errors (globals_of (recv_loop mem msgs st g)) = errors g)
  ∧ (let run := recv_loop mem_nines
                  [ {| rv_ret := 30; rv_errno := 0;
                       rv_cmsgs := [frag 5 0 30 1 1] |}; peer_closed ]
                  rx_init (g_bound 5) in
     ∃ st, result_of run = Ok st
           ∧ total_received st = 30
           ∧ read_region (tmp_mem st) 0 30 = replicate 30 9
           ∧ errors (globals_of run) = 0
           ∧ validate_buffer cfg_v7 (read_region (tmp_mem st) 0 30) 0
               (g_bound 5)
             = (Stop (Exit 1 "validation failed."),
                {| dmabuf_id := 5; tx_dmabuf_id := 0; errors := 21 |},
                replicate 21 (EvLog "Failed validation"))).
Proof.
  split.
  - intros mem msgs st g. by rewrite recv_loop_globals.
  - eexists. split; [vm_compute; reflexivity|].
    repeat split; vm_compute; reflexivity.
Qed.

(** ** Header split *)

(** C7 (as amended): [configure_headersplit] returns the result of the
    set request: 0 exactly when the ethtool session was created and
    [ethtool_rings_set] returned 0.  In that case it has issued, after the
    set of the requested value (2 for on, 0 for off), one read of the ring
    configuration and, when the read is answered, it has logged the
    observed [tcp_data_split]; the observed value is not compared with the
    requested one and has no influence on the result. *)
Theorem C7_headersplit_returns_set_result (cfg : config) (on : bool)
    (e : split_env) (g : globals) :
  (result_of (configure_headersplit cfg on e g) = Ok 0
   ↔ hs_sock e = true ∧ hs_set_ret e = 0)
  ∧ (hs_sock e = true → hs_set_ret e = 0 →
     trace_of (configure_headersplit cfg on e g)
     = [EvRingsSet (ifindex cfg) (if on then 2 else 0);
        EvRingsGet (ifindex cfg)]
       ++ match hs_get_rsp e with
          | Some v => [EvLog (split_log v)]
          | None => []
          end
       ++ [EvSockDestroy])
  ∧ (∀ rsp,
       result_of (configure_headersplit cfg on (set_get_rsp rsp e) g)
       = result_of (configure_headersplit cfg on e g)).
Proof.
  split; [|split].
  - rewrite configure_headersplit_run. unfold result_of. simpl.
    destruct (hs_sock e); split.
    + intros [= ->]. done.
    + intros [_ ->]. done.
    + intros [=].
    + intros [[=] _].
  - intros Hs Hr. rewrite configure_headersplit_run.
    unfold trace_of, headersplit_trace, readback_log. simpl.
    rewrite Hs, Hr. simpl. by destruct (hs_get_rsp e).
  - intros rsp. by rewrite !configure_headersplit_run.
Qed.

Lemma C7_headersplit_witness :
  trace_of (configure_headersplit cfg0 true (split_answers 2) g0)
  = [EvRingsSet 3 2; EvRingsGet 3; EvLog "TCP header split: on";
     EvSockDestroy].
Proof.
  apply (proj1 (proj2 (C7_headersplit_returns_set_result
                         cfg0 true (split_answers 2) g0)));
    reflexivity.
Defined.

(** C7, counterexample to success implying a confirming read-back:
    header split on is requested, the read-back observes off (0), and the
    function still returns success. *)
Lemma C7_readback_disagrees_yet_success :
  ¬ (∀ (cfg : config) (on : bool) (e : split_env) (g : globals),
       result_of (configure_headersplit cfg on e g) = Ok 0 →
       hs_get_rsp e = Some (if on then 2 else 0)).
Proof.
  intros H. specialize (H cfg0 true (split_answers 0) g0 eq_refl).
  discriminate H.
Qed.

(** ** Binding and the self-test *)



(** In the source [mem] is NULL when [mem->fd] is evaluated for the first
    bind: the self-test stops there, before any bind is issued. *)
Lemma run_devmem_tests_null_buffer cfg e g :
  te_rss e = 0 → split_ret (te_split_on e) = 0 →
  run_devmem_tests cfg e g
  = (Stop (Undefined "mem->fd with mem == NULL"), g,
     EvRun (CmdRssEqual (start_queue cfg))
     :: headersplit_trace cfg true (te_split_on e)).
Proof.
  intros Hr Hs. unfold run_devmem_tests. cbv zeta.
  rewrite (run_check_nz _ _ _ _ _ _ _ (configure_rss_run _ _ _)), Hr.
  change (0 =? 0) with true. cbv iota.
  rewrite (run_check_nz _ _ _ _ _ _ _ (configure_headersplit_run _ _ _ _)).
  fold (split_ret (te_split_on e)). rewrite Hs.
  change (0 =? 0) with true. cbv iota.
  unfold prepend. simpl. by rewrite app_nil_r.
Qed.

(** ** Zero-copy completions *)












(** ** The payload vector of a send *)

Lemma wrap64_small z : 0 ≤ z < 2 ^ 64 → wrap64 z = z.
Proof. intros H. unfold wrap64. by apply Z.mod_small. Qed.

(** [(L + C - 1) / C] is the ceiling of [L / C]. *)
Lemma ceil_div_bounds C L :
  0 < C → 0 < L →
  1 ≤ (L + C - 1) / C ∧ ((L + C - 1) / C - 1) * C < L ≤ (L + C - 1) / C * C.
Proof.
  intros HC HL.
  pose proof (Z.div_mod (L + C - 1) C ltac:(lia)) as Hdm.
  pose proof (Z.mod_pos_bound (L + C - 1) C HC) as Hm.
  nia.
Qed.

Lemma fill_iov_length C count i iov :
  length (fill_iov C count i iov) = length iov.
Proof.
  revert i iov. induction count as [|k IH]; intros i iov; [done|].
  cbn [fill_iov]. by rewrite IH, length_insert.
Qed.

Lemma fill_iov_lookup C count i0 (iov : list iovec) (j : nat) :
  0 ≤ i0 → (Z.to_nat i0 + count ≤ length iov)%nat →
  fill_iov C count i0 iov !! j
  = if decide (Z.to_nat i0 ≤ j < Z.to_nat i0 + count)%nat
    then Some {| iov_base := wrap64 (Z.of_nat j * C); iov_len := C |}
    else iov !! j.
Proof.
  revert i0 iov. induction count as [|k IH]; intros i0 iov Hi Hlen.
  - cbn [fill_iov]. case_decide; [lia|done].
  - cbn [fill_iov]. rewrite IH by (rewrite ?length_insert; lia).
    replace (Z.to_nat (i0 + 1)) with (S (Z.to_nat i0)) by lia.
    repeat case_decide; try lia; try done.
    + assert (j = Z.to_nat i0) as -> by lia.
      rewrite list_lookup_insert_eq by lia. by rewrite Z2Nat.id by lia.
    + rewrite list_lookup_insert_ne by lia. done.
Qed.

Lemma build_iov_chunked C (iov : list iovec) L g :
  0 < C < 2 ^ 63 → 0 < L < 2 ^ 63 → length iov = Z.to_nat MAX_IOV →
  (L + C - 1) / C ≤ MAX_IOV →
  ∃ iov',
    build_iov C iov L g = (Ok (iov', (L + C - 1) / C), g, [])
    ∧ length iov' = length iov
    ∧ segments iov' ((L + C - 1) / C) = chunked C L ((L + C - 1) / C).
Proof.
  intros HC HL Hlen Hn.
  destruct (ceil_div_bounds C L ltac:(lia) ltac:(lia)) as (Hn1 & Hlo & Hhi).
  unfold build_iov.
  assert (EC : (C =? 0) = false) by (apply Z.eqb_neq; lia).
  rewrite EC. cbn [negb]. rewrite (wrap64_small (L + C - 1)) by lia.
  set (n := (L + C - 1) / C) in *.
  rewrite run_fatal_if.
  assert (E1 : (MAX_IOV <? n) = false) by (apply Z.ltb_ge; lia).
  assert (E2 : (n =? 0) = false) by (apply Z.eqb_neq; lia).
  rewrite E1, E2. eexists. split; [reflexivity|].
  split; [by rewrite length_alter, fill_iov_length|].
  unfold segments, chunked. apply list_eq. intros j.
  rewrite list_lookup_fmap.
  destruct (decide (Z.of_nat j < n)) as [Hj|Hj].
  - rewrite lookup_take_lt by lia. rewrite lookup_seqZ_lt by lia.
    rewrite Z.add_0_l. cbn [fmap option_fmap option_map].
    destruct (decide (j = Z.to_nat (n - 1))) as [->|Hne].
    + rewrite list_lookup_alter_eq, fill_iov_lookup by lia.
      rewrite decide_True by lia. simpl. unfold set_iov_len. simpl.
      rewrite Z2Nat.id by lia. rewrite Z.eqb_refl.
      rewrite !wrap64_small by nia. done.
    + rewrite list_lookup_alter_ne by lia. rewrite fill_iov_lookup by lia.
      rewrite decide_True by lia.
      assert (E : (Z.of_nat j =? n - 1) = false) by (apply Z.eqb_neq; lia).
      rewrite E. rewrite wrap64_small by nia. done.
  - rewrite lookup_take_ge by lia. by rewrite lookup_seqZ_ge by lia.
Qed.

(** X19: the payload vector of a transmit iteration of [line_size = L]
    bytes, for sizes in the range of [ssize_t].  With [max_chunk = C > 0]:
    the number of segments is [(L + C - 1) / C], the ceiling of [L / C];
    when it is at most 1024 the message refers to exactly that many
    segments, the i-th at offset [i * C], all of length [C] but the last,
    whose length is the remainder [L - (n - 1) * C], between 1 and [C];
    when it exceeds 1024 the process ends.  With [max_chunk = 0] the
    message is the single segment of length [L] at offset 0. *)
Theorem X19_payload_segments_in_range (C L : Z) (iov : list iovec) (g : globals) :
  length iov = Z.to_nat MAX_IOV → 0 < L < 2 ^ 63 →
  (0 < C < 2 ^ 63 →
   let n := (L + C - 1) / C in
   (n - 1) * C < L ≤ n * C
   ∧ (n ≤ 1024 →
      ∃ iov', build_iov C iov L g = (Ok (iov', n), g, [])
              ∧ length (segments iov' n) = Z.to_nat n
              ∧ segments iov' n
                = (λ i, {| iov_base := i * C;
                           iov_len := if i =? n - 1 then L - (n - 1) * C
                                      else C |}) <$> seqZ 0 n)
   ∧ (1024 < n →
      build_iov C iov L g
      = (Stop (Exit 1 "can't partition bytes into maximum of 1024 chunks"),
         g, [])))
  ∧ (C = 0 →
     ∃ iov', build_iov C iov L g = (Ok (iov', 1), g, [])
             ∧ segments iov' 1 = [{| iov_base := 0; iov_len := L |}]).
Proof.
  intros Hlen HL. split.
  - intros HC. cbv zeta.
    destruct (ceil_div_bounds C L ltac:(lia) ltac:(lia)) as (Hn1 & Hlo & Hhi).
    split; [lia|]. split.
    + intros Hn.
      destruct (build_iov_chunked C iov L g HC HL Hlen Hn)
        as (iov' & Hrun & Hlen' & Hseg).
      exists iov'. split; [done|]. split; [|done].
      rewrite Hseg. unfold chunked. by rewrite length_fmap, length_seqZ.
    + intros Hn. unfold build_iov.
      assert (EC : (C =? 0) = false) by (apply Z.eqb_neq; lia).
      rewrite EC. cbn [negb]. rewrite (wrap64_small (L + C - 1)) by lia.
      rewrite run_fatal_if.
      assert (E1 : (MAX_IOV <? (L + C - 1) / C) = true)
        by (apply Z.ltb_lt; unfold MAX_IOV; lia).
      by rewrite E1.
  - intros ->. unfold build_iov. simpl. eexists. split; [reflexivity|].
    unfold segments. rewrite wrap64_small by lia.
    destruct iov as [|v iov]; [discriminate Hlen|]. done.
Qed.

(** Inside the producer loop the clamped [line_size] is positive and
    fits what is left of the buffer. *)
Lemma clamp_line_size_pos mem total ls :
  0 ≤ total < mb_size mem → mb_size mem < 2 ^ 63 → 0 < ls < 2 ^ 63 →
  0 < clamp_line_size mem total ls ≤ mb_size mem - total.
Proof.
  intros Ht Hm Hl. unfold clamp_line_size.
  rewrite (wrap64_small (total + ls)) by lia.
  destruct (mb_size mem <=? total + ls) eqn:E.
  - unfold sign64. rewrite (wrap64_small (mb_size mem - total)) by lia.
    assert (E2 : (mb_size mem - total <? 2 ^ 63) = true)
      by (apply Z.ltb_lt; lia).
    rewrite E2. lia.
  - apply Z.leb_gt in E. lia.
Qed.

(** C5, the failing input: option [-z -1] stores [(size_t)-1] in
    [max_chunk].  For a line of 5 bytes the number of segments the claim
    gives is the ceiling of [5 / C], which is 1 and well below the cap;
    in the code the sum [line_size + max_chunk - 1] wraps, so
    [msg.msg_iovlen] is 0, the cap check passes, no segment is written,
    and the store of the last length goes to [iov[msg.msg_iovlen - 1]],
    outside the array. *)
Theorem C5_wrapped_chunk_has_no_segment :
  let C := wrap64 (-1) in
  0 < C ∧ (5 + C - 1) / C = 1 ∧ 1 ≤ MAX_IOV
  ∧ wrap64 (5 + C - 1) / C = 0
  ∧ build_iov C iov0 5 g0
    = (Stop (Undefined "iov[msg.msg_iovlen - 1] with msg_iovlen == 0"),
       g0, [])
  ∧ ¬ ∃ iov', build_iov C iov0 5 g0 = (Ok (iov', 1), g0, []).
Proof.
  cbv zeta. repeat split; try by vm_compute.
  intros [iov' H]. vm_compute in H. discriminate H.
Qed.

(** ** Concrete runs *)

Lemma C1_fragments_witness :
  handle_cmsg mem0 (frag 8 0 30 1 1) rx_init false (g_bound 7)
  = (Stop (Exit 1 "received on wrong dmabuf_id: flow steering error"),
     g_bound 7, [])
  ∧ Forall (frag_event_ok 7 (all_cmsgs msgs0))
      (trace_of (do_server cfg0 mem0 (server_env0 (bind_answers 7) msgs0) g0))
  ∧ Forall (frag_event_ok 0 [])
      (trace_of (do_server cfg0 mem0 (server_env0 bind_refused msgs0) g0)).
Proof.
  split; [|split].
  - apply (proj1 (C1_fragments_match_binding
                    cfg0 mem0 (server_env0 (bind_answers 7) msgs0) g0)).
    + split; reflexivity.
    + discriminate.
  - apply (proj1 (proj2 (C1_fragments_match_binding
                           cfg0 mem0 (server_env0 (bind_answers 7) msgs0) g0))).
    reflexivity.
  - apply (proj2 (proj2 (C1_fragments_match_binding
                           cfg0 mem0 (server_env0 bind_refused msgs0) g0))).
    reflexivity.
Defined.

Lemma C3_token_return_witness :
  handle_cmsg mem0 (frag 7 0 30 1 1) rx_init false (g_bound 7)
  = (Ok (add_received 30
           (account_frag mem0 (cmsg_data (frag 7 0 30 1 1)) rx_init), true),
     g_bound 7,
     [EvCopy 0 0 30; EvDontneed 1 1;
      EvFragLog (cmsg_data (frag 7 0 30 1 1)) 30])
  ∧ handle_cmsg mem0 (frag 7 0 30 1 0) rx_init false (g_bound 7)
    = (Stop (Exit 1 "SO_DEVMEM_DONTNEED not enough tokens"), g_bound 7,
       [EvCopy 0 0 30; EvDontneed 1 1]).
Proof.
  split.
  - apply (proj1 (C3_token_return_expects_one
                    mem0 (frag 7 0 30 1 1) rx_init false (g_bound 7)
                    (conj eq_refl eq_refl) eq_refl)).
    reflexivity.
  - apply (proj2 (C3_token_return_expects_one
                    mem0 (frag 7 0 30 1 0) rx_init false (g_bound 7)
                    (conj eq_refl eq_refl) eq_refl)).
    discriminate.
Defined.

(** C3, counterexample to a return of 0 counting as success: the kernel
    answers 0 to the token return, the value [setsockopt] gives on success
    for other options, and the process ends. *)
Lemma C3_zero_return_is_fatal :
  ¬ (∀ (mem : memory_buffer) (cm : cmsghdr) (st : rx_state) (d : bool)
       (g : globals),
       is_dmabuf cm → cm_dmabuf_id (cmsg_data cm) = dmabuf_id g →
       so_dontneed_ret cm = 0 →
       ∃ r, result_of (handle_cmsg mem cm st d g) = Ok r).
Proof.
  intros H.
  destruct (H mem0 (frag 7 0 30 1 0) rx_init false (g_bound 7)
              (conj eq_refl eq_refl) eq_refl eq_refl) as [r Hr].
  discriminate Hr.
Qed.

Lemma C6_recv_dispatch_witness :
  recv_loop mem0 (received (-1) EAGAIN [] :: [peer_closed]) rx_init (g_bound 7)
  = prepend [EvRecvmsg] (recv_loop mem0 [peer_closed] rx_init (g_bound 7))
  ∧ recv_loop mem0 (received (-1) 104 [] :: [peer_closed]) rx_init (g_bound 7)
    = prepend [EvRecvmsg; EvLog "recvmsg: error"]
        (recv_loop mem0 [peer_closed] rx_init (g_bound 7))
  ∧ (recv_loop mem0 (peer_closed :: []) rx_init ;;
     server_cleanup (server_env0 (bind_answers 7) msgs0)) (g_bound 7)
    = (Ok 0, g_bound 7,
       [EvRecvmsg; EvLog "client exited"]
       ++ cleanup_trace (server_env0 (bind_answers 7) msgs0))
  ∧ recv_loop mem0 msgs0 rx_init (g_bound 7)
    = prepend [EvRecvmsg; EvLog "recvmsg_ret"]
        ((r ← process_cmsgs mem0 [linear 12; frag 7 0 30 1 1] rx_init false ;
          fatal_if (negb r.2) "flow steering error" ;;
          recv_loop mem0 [peer_closed] r.1) (g_bound 7)).
Proof.
  split; [|split; [|split]].
  - apply (proj1 (C6_recv_dispatch mem0 (received (-1) EAGAIN [])
                    [peer_closed] rx_init (g_bound 7)
                    (server_env0 (bind_answers 7) msgs0))).
    + reflexivity.
    + left. reflexivity.
  - apply (proj1 (proj2 (C6_recv_dispatch mem0 (received (-1) 104 [])
                           [peer_closed] rx_init (g_bound 7)
                           (server_env0 (bind_answers 7) msgs0)))).
    + reflexivity.
    + discriminate.
    + discriminate.
  - apply (proj1 (proj2 (proj2 (C6_recv_dispatch mem0 peer_closed
                           [] rx_init (g_bound 7)
                           (server_env0 (bind_answers 7) msgs0))))).
    reflexivity.
  - apply (proj2 (proj2 (proj2 (C6_recv_dispatch mem0
                           (received 30 0 [linear 12; frag 7 0 30 1 1])
                           [peer_closed] rx_init (g_bound 7)
                           (server_env0 (bind_answers 7) msgs0))))).
    reflexivity.
Defined.

Lemma C8_nic_sequence_witness :
  (∃ k n, (k = 1 ∨ k = 2)%nat ∧ (1 ≤ n)%nat ∧
     steps (trace_of (do_server cfg0 mem0
                        (server_env0 (bind_answers 7) msgs0) g0))
     = replicate 3 StepReset ++ [StepSplit 2; StepRss]
       ++ replicate k StepFlow ++ [StepSettle; StepBind]
       ++ replicate n StepRecv)
  ∧ (∃ msg, result_of (do_server cfg0 mem0 (server_env0 bind_refused msgs0) g0)
            = Stop (Exit 1 msg)
            ∧ EvRecvmsg
              ∉ trace_of (do_server cfg0 mem0
                            (server_env0 bind_refused msgs0) g0)).
Proof.
  split.
  - apply (proj1 (C8_nic_sequence_order
                    cfg0 mem0 (server_env0 (bind_answers 7) msgs0) g0)).
    vm_compute.
    repeat first [apply list_elem_of_here | apply list_elem_of_further].
  - apply (proj1 (proj2 (C8_nic_sequence_order
                           cfg0 mem0 (server_env0 bind_refused msgs0) g0))).
    right; right; right. discriminate.
Defined.

Lemma C10_linear_witness :
  handle_cmsg mem0 (linear 12) rx_init false (g_bound 7)
  = (Ok (rx_init, true), g_bound 7, [EvLog "SCM_DEVMEM_LINEAR"])
  ∧ recv_loop mem0 (received 12 0 [linear 12] :: [peer_closed]) rx_init
      (g_bound 7)
    = prepend [EvRecvmsg; EvLog "recvmsg_ret"; EvLog "SCM_DEVMEM_LINEAR"]
        (recv_loop mem0 [peer_closed] rx_init (g_bound 7))
  ∧ recv_loop mem0 (received 12 0 [] :: [peer_closed]) rx_init (g_bound 7)
    = (Stop (Exit 1 "flow steering error"), g_bound 7,
       [EvRecvmsg; EvLog "recvmsg_ret"]).
Proof.
  split; [|split].
  - apply (proj1 (C10_linear_marks_devmem_and_is_skipped mem0)).
    split; reflexivity.
  - apply (proj1 (proj2 (C10_linear_marks_devmem_and_is_skipped mem0))
             (received 12 0 [linear 12]) [peer_closed] rx_init (g_bound 7)).
    + reflexivity.
    + discriminate.
    + repeat constructor.
  - apply (proj2 (proj2 (C10_linear_marks_devmem_and_is_skipped mem0))
             (received 12 0 []) [peer_closed] rx_init (g_bound 7));
      reflexivity.
Defined.


Lemma X19_payload_segments_witness :
  (∃ iov', build_iov 4096 iov0 10000 g0 = (Ok (iov', 3), g0, [])
           ∧ length (segments iov' 3) = 3%nat
           ∧ segments iov' 3
             = [ {| iov_base := 0; iov_len := 4096 |};
                 {| iov_base := 4096; iov_len := 4096 |};
                 {| iov_base := 8192; iov_len := 1808 |} ])
  ∧ build_iov 1 iov0 2000 g0
    = (Stop (Exit 1 "can't partition bytes into maximum of 1024 chunks"),
       g0, [])
  ∧ (∃ iov', build_iov 0 iov0 2000 g0 = (Ok (iov', 1), g0, [])
             ∧ segments iov' 1 = [ {| iov_base := 0; iov_len := 2000 |} ]).
Proof.
  split; [|split].
  - destruct (X19_payload_segments_in_range 4096 10000 iov0 g0 eq_refl
                ltac:(by vm_compute)) as [H _].
    destruct (H ltac:(by vm_compute)) as (_ & Hok & _).
    apply Hok. by vm_compute.
  - destruct (X19_payload_segments_in_range 1 2000 iov0 g0 eq_refl
                ltac:(by vm_compute)) as [H _].
    destruct (H ltac:(by vm_compute)) as (_ & _ & Hbad).
    apply Hbad. by vm_compute.
  - destruct (X19_payload_segments_in_range 0 2000 iov0 g0 eq_refl
                ltac:(by vm_compute)) as [_ H].
    apply H. reflexivity.
Defined.

(** * Further properties of the code *)

(** ** validate_buffer *)

Lemma validate_loop_cons dv b rest seed g :
  validate_loop dv (b :: rest) seed g
  = if b =? seed then validate_loop dv rest (next_seed dv seed) g
    else if 20 <? errors g + 1 then
      (Stop (Exit 1 "validation failed."), set_errors (errors g + 1) g,
       [EvLog "Failed validation"])
    else
      prepend [EvLog "Failed validation"]
        (validate_loop dv rest (next_seed dv seed)
           (set_errors (errors g + 1) g)).
Proof.
  cbn [validate_loop]. fold (next_seed dv seed). rewrite run_bind_prepend.
  destruct (b =? seed); cbn [negb].
  - munfold. unfold prepend. simpl.
    by destruct (validate_loop dv rest (next_seed dv seed) g) as [[r g2] t2].
  - rewrite run_emit, run_bind_prepend. cbn [get_globals].
    rewrite run_bind_prepend. cbn [modify]. unfold fatal_if.
    destruct (20 <? errors g + 1); reflexivity.
Qed.

Lemma mismatches_nonneg dv ptr seed : 0 ≤ mismatches dv ptr seed.
Proof.
  revert seed. induction ptr as [|b rest IH]; intros seed; simpl; [done|].
  specialize (IH (next_seed dv seed)). destruct (b =? seed); lia.
Qed.

Lemma set_errors_same g : set_errors (errors g + 0) g = g.
Proof. destruct g. unfold set_errors. simpl. f_equal. lia. Qed.

(** [validate_loop] against the count of mismatching bytes. *)
Lemma validate_loop_spec dv ptr seed g :
  errors g ≤ 20 →
  let k := mismatches dv ptr seed in
  validate_loop dv ptr seed g
  = if errors g + k <=? 20 then
      (Ok (), set_errors (errors g + k) g,
       replicate (Z.to_nat k) (EvLog "Failed validation"))
    else
      (Stop (Exit 1 "validation failed."), set_errors 21 g,
       replicate (Z.to_nat (21 - errors g)) (EvLog "Failed validation")).
Proof.
  revert seed g. induction ptr as [|b rest IH]; intros seed g Hg; cbv zeta.
  - simpl. assert (E : (errors g + 0 <=? 20) = true) by (apply Z.leb_le; lia).
    rewrite E, set_errors_same. done.
  - rewrite validate_loop_cons. cbn [mismatches].
    pose proof (mismatches_nonneg dv rest (next_seed dv seed)) as Hk.
    set (k := mismatches dv rest (next_seed dv seed)) in *.
    destruct (b =? seed).
    + rewrite (IH _ g Hg). fold k. by rewrite Z.add_0_l.
    + destruct (20 <? errors g + 1) eqn:E.
      * apply Z.ltb_lt in E.
        assert (E2 : (errors g + (1 + k) <=? 20) = false)
          by (apply Z.leb_gt; lia).
        rewrite E2. replace (errors g) with 20 by lia. done.
      * apply Z.ltb_ge in E. rewrite IH by (simpl; lia). fold k. simpl.
        replace (errors g + 1 + k) with (errors g + (1 + k)) by lia.
        destruct (errors g + (1 + k) <=? 20) eqn:E2; unfold prepend; simpl.
        -- replace (Z.to_nat (1 + k)) with (S (Z.to_nat k)) by lia.
           unfold set_errors. simpl. done.
        -- replace (Z.to_nat (21 - errors g))
             with (S (Z.to_nat (21 - (errors g + 1)))) by lia.
           unfold set_errors. simpl. done.
Qed.

(** X1: the mismatch threshold of [validate_buffer] is cumulative over
    the calls of a process.  With a non-zero modulus and an error count
    of at most 20 so far, a region with [k] bytes off the sequence that
    starts at [seed mod do_validation] logs each of them and adds [k] to
    the count as long as the count stays at most 20; otherwise the
    process ends with "validation failed." at the mismatch that makes the
    count 21. *)
Theorem X1_validate_buffer_counts_mismatches (cfg : config) (line : list Z)
    (seed : Z) (g : globals) :
  do_validation cfg ≠ 0 → errors g ≤ 20 →
  let k := mismatches (do_validation cfg) line (seed mod do_validation cfg) in
  0 ≤ k
  ∧ (errors g + k ≤ 20 →
     validate_buffer cfg line seed g
     = (Ok (), set_errors (errors g + k) g,
        replicate (Z.to_nat k) (EvLog "Failed validation")))
  ∧ (20 < errors g + k →
     validate_buffer cfg line seed g
     = (Stop (Exit 1 "validation failed."), set_errors 21 g,
        replicate (Z.to_nat (21 - errors g)) (EvLog "Failed validation"))).
Proof.
  intros Hdv Hg. cbv zeta. unfold validate_buffer.
  apply Z.eqb_neq in Hdv. rewrite Hdv.
  rewrite (validate_loop_spec _ _ _ g Hg). cbv zeta.
  split; [apply mismatches_nonneg|]. split; intros H.
  - apply Z.leb_le in H. by rewrite H.
  - apply Z.leb_gt in H. by rewrite H.
Qed.

Lemma X1_validate_buffer_witness :
  validate_buffer cfg_v7 [0; 1; 9; 3; 4; 9; 6; 0] 0 (g_bound 5)
  = (Ok (), {| dmabuf_id := 5; tx_dmabuf_id := 0; errors := 2 |},
     [EvLog "Failed validation"; EvLog "Failed validation"])
  ∧ validate_buffer cfg_v7 [9; 9] 0
      {| dmabuf_id := 5; tx_dmabuf_id := 0; errors := 19 |}
    = (Stop (Exit 1 "validation failed."),
       {| dmabuf_id := 5; tx_dmabuf_id := 0; errors := 21 |},
       [EvLog "Failed validation"; EvLog "Failed validation"]).
Proof.
  split.
  - apply (proj1 (proj2 (X1_validate_buffer_counts_mismatches
                           cfg_v7 [0; 1; 9; 3; 4; 9; 6; 0] 0 (g_bound 5)
                           ltac:(discriminate) ltac:(by vm_compute)))).
    by vm_compute.
  - apply (proj2 (proj2 (X1_validate_buffer_counts_mismatches
                           cfg_v7 [9; 9] 0
                           {| dmabuf_id := 5; tx_dmabuf_id := 0; errors := 19 |}
                           ltac:(discriminate) ltac:(by vm_compute)))).
    by vm_compute.
Defined.

Lemma next_seed_mod dv off :
  0 < dv < 2 ^ 64 → 0 ≤ off →
  next_seed dv (off mod dv) = (off + 1) mod dv.
Proof.
  intros Hdv Hoff. unfold next_seed.
  pose proof (Z.mod_pos_bound off dv ltac:(lia)) as Hm.
  rewrite wrap64_small by lia.
  pose proof (Z.div_mod off dv ltac:(lia)) as Hdm.
  destruct (off mod dv + 1 =? dv) eqn:E.
  - apply Z.eqb_eq in E.
    apply (Z.mod_unique_pos _ _ (off / dv + 1)); lia.
  - apply Z.eqb_neq in E.
    apply (Z.mod_unique_pos _ _ (off / dv)); lia.
Qed.

Lemma mismatches_pattern dv (n : nat) off :
  0 < dv ≤ 256 → 0 ≤ off →
  mismatches dv ((λ i, (i mod dv) mod 256) <$> seqZ off (Z.of_nat n))
    (off mod dv) = 0.
Proof.
  intros Hdv. revert off. induction n as [|n IH]; intros off Hoff.
  - done.
  - rewrite seqZ_cons by lia.
    replace (Z.pred (Z.of_nat (S n))) with (Z.of_nat n) by lia.
    cbn [fmap list_fmap mismatches].
    pose proof (Z.mod_pos_bound off dv ltac:(lia)) as Hm.
    rewrite (Z.mod_small (off mod dv) 256) by lia. rewrite Z.eqb_refl.
    rewrite next_seed_mod by lia.
    replace (Z.succ off) with (off + 1) by lia.
    rewrite (IH (off + 1)) by lia. done.
Qed.

Lemma validation_line_slice dv size off len :
  0 ≤ off → 0 ≤ len → off + len ≤ size →
  take (Z.to_nat len) (drop (Z.to_nat off) (validation_line dv size))
  = (λ i, (i mod dv) mod 256) <$> seqZ off len.
Proof.
  intros Hoff Hlen Hsize. unfold validation_line. apply list_eq. intros j.
  rewrite !list_lookup_fmap.
  destruct (decide (Z.of_nat j < len)) as [Hj|Hj].
  - rewrite lookup_take_lt by lia. rewrite lookup_drop, list_lookup_fmap.
    rewrite !lookup_seqZ_lt by lia. simpl. do 3 f_equal. lia.
  - rewrite lookup_take_ge by lia. by rewrite lookup_seqZ_ge by lia.
Qed.

Lemma seed_after_small dv (i : nat) seed :
  0 ≤ seed → seed + Z.of_nat i < dv < 2 ^ 64 →
  seed_after dv i seed = seed + Z.of_nat i.
Proof.
  revert seed. induction i as [|i IH]; intros seed Hs H; simpl; [lia|].
  unfold next_seed. rewrite wrap64_small by lia.
  assert (E : (seed + 1 =? dv) = false) by (apply Z.eqb_neq; lia).
  rewrite E, IH by lia. lia.
Qed.

Lemma mismatches_lookup dv (i : nat) ptr seed b :
  ptr !! i = Some b → b ≠ seed_after dv i seed →
  1 ≤ mismatches dv ptr seed.
Proof.
  revert ptr seed. induction i as [|i IH]; intros [|x rest] seed Hl Hne;
    try discriminate Hl.
  - injection Hl as ->. simpl in *. apply Z.eqb_neq in Hne. rewrite Hne.
    pose proof (mismatches_nonneg dv rest (next_seed dv seed)). lia.
  - simpl in Hl. cbn [mismatches]. simpl in Hne.
    specialize (IH rest (next_seed dv seed) Hl Hne).
    destruct (x =? seed); lia.
Qed.

(** X2: the pattern the sender generates under validation,
    [line[i] = i % do_validation], is what [validate_buffer] expects at
    any offset, as long as the modulus fits a byte: for a modulus from 1
    to 256, every slice of the pattern validates with its offset as seed,
    without a mismatch.  With a larger modulus the pattern wraps at 256
    while the expected value does not, and the sender's own pattern fails
    validation. *)
Theorem X2_sender_pattern_validates (cfg : config) (size off len : Z)
    (g : globals) :
  0 ≤ off → 0 ≤ len → off + len ≤ size →
  (0 < do_validation cfg ≤ 256 →
   validate_buffer cfg
     (take (Z.to_nat len)
        (drop (Z.to_nat off) (validation_line (do_validation cfg) size)))
     off g
   = (Ok (), g, []))
  ∧ (256 < do_validation cfg < 2 ^ 64 → 256 < size → 0 ≤ errors g ≤ 20 →
     EvLog "Failed validation"
     ∈ trace_of (validate_buffer cfg
                   (validation_line (do_validation cfg) size) 0 g)).
Proof.
  intros Hoff Hlen Hsize. split.
  - intros Hdv. unfold validate_buffer.
    assert (E : (do_validation cfg =? 0) = false) by (apply Z.eqb_neq; lia).
    rewrite E, validation_line_slice by lia.
    assert (Hk : mismatches (do_validation cfg)
                   ((λ i, (i mod do_validation cfg) mod 256) <$> seqZ off len)
                   (off mod do_validation cfg) = 0).
    { rewrite <- (Z2Nat.id len) by lia. apply mismatches_pattern; lia. }
    assert (He : ∀ (n : nat) g1,
               validate_loop (do_validation cfg)
                 ((λ i, (i mod do_validation cfg) mod 256)
                    <$> seqZ off (Z.of_nat n))
                 (off mod do_validation cfg) g1 = (Ok (), g1, [])).
    { clear Hk Hlen Hsize E. intros n. revert off Hoff.
      induction n as [|n IH]; intros off Hoff g1; [done|].
      rewrite seqZ_cons by lia.
      replace (Z.pred (Z.of_nat (S n))) with (Z.of_nat n) by lia.
      cbn [fmap list_fmap]. rewrite validate_loop_cons.
      pose proof (Z.mod_pos_bound off (do_validation cfg) ltac:(lia)) as Hm.
      rewrite (Z.mod_small (off mod do_validation cfg) 256) by lia.
      rewrite Z.eqb_refl, next_seed_mod by lia.
      replace (Z.succ off) with (off + 1) by lia. apply IH. lia. }
    rewrite <- (Z2Nat.id len) by lia. apply He.
  - intros Hdv Hs Hg. unfold validate_buffer.
    assert (E : (do_validation cfg =? 0) = false) by (apply Z.eqb_neq; lia).
    rewrite E, Z.mod_0_l by lia.
    rewrite (validate_loop_spec _ _ _ g ltac:(lia)). cbv zeta.
    assert (Hk : 1 ≤ mismatches (do_validation cfg)
                   (validation_line (do_validation cfg) size) 0).
    { apply (mismatches_lookup _ 256 _ _ 0).
      - unfold validation_line. rewrite list_lookup_fmap.
        rewrite lookup_seqZ_lt by lia. simpl.
        rewrite (Z.mod_small 256) by lia. done.
      - rewrite seed_after_small by lia. discriminate. }
    set (k := mismatches _ _ _) in *.
    destruct (errors g + k <=? 20); unfold trace_of; simpl.
    + destruct (Z.to_nat k) as [|n] eqn:En; [lia|]. apply list_elem_of_here.
    + destruct (Z.to_nat (21 - errors g)) as [|n] eqn:En; [lia|].
      apply list_elem_of_here.
Qed.

Lemma X2_sender_pattern_witness :
  validate_buffer (cfg_v 7)
    (take (Z.to_nat 20) (drop (Z.to_nat 13) (validation_line 7 64))) 13 g0
  = (Ok (), g0, [])
  ∧ EvLog "Failed validation"
    ∈ trace_of (validate_buffer (cfg_v 300) (validation_line 300 300) 0 g0).
Proof.
  split.
  - apply (proj1 (X2_sender_pattern_validates (cfg_v 7) 64 13 20 g0
                    ltac:(by vm_compute) ltac:(by vm_compute)
                    ltac:(by vm_compute))).
    by vm_compute.
  - apply (proj2 (X2_sender_pattern_validates (cfg_v 300) 300 0 0 g0
                    ltac:(by vm_compute) ltac:(by vm_compute)
                    ltac:(by vm_compute))); by vm_compute.
Defined.

(** ** The queue list and the bind requests *)

(** X3: [create_queues] builds exactly [num_queues] entries; the i-th
    names the RX queue [start_queue + i] with type and id present, so the
    ids are the consecutive queues from [start_queue] up to
    [start_queue + num_queues - 1], each once. *)
Theorem X3_create_queues_range (cfg : config) :
  0 ≤ num_queues cfg →
  length (create_queues cfg) = Z.to_nat (num_queues cfg)
  ∧ (∀ i : nat,
       Z.of_nat i < num_queues cfg →
       create_queues cfg !! i
       = Some {| q_present_type := true; q_present_id := true;
                 q_type := NETDEV_QUEUE_TYPE_RX;
                 q_id := start_queue cfg + Z.of_nat i |})
  ∧ (∀ q, q ∈ create_queues cfg →
          q_type q = NETDEV_QUEUE_TYPE_RX
          ∧ start_queue cfg ≤ q_id q < start_queue cfg + num_queues cfg)
  ∧ NoDup (q_id <$> create_queues cfg).
Proof.
  intros Hn. unfold create_queues. split; [|split; [|split]].
  - by rewrite length_fmap, length_seqZ.
  - intros i Hi. rewrite list_lookup_fmap, lookup_seqZ_lt by lia. simpl.
    done.
  - intros q Hq. apply list_elem_of_fmap in Hq as (i & -> & Hi).
    apply elem_of_seqZ in Hi. simpl. split; [done|lia].
  - rewrite <- list_fmap_compose.
    apply NoDup_fmap_2_strong; [|apply NoDup_seqZ].
    intros x y _ _. simpl. lia.
Qed.

Lemma X3_create_queues_witness :
  create_queues (cfg_v 7) !! 0%nat
  = Some {| q_present_type := true; q_present_id := true;
            q_type := NETDEV_QUEUE_TYPE_RX; q_id := 7 + Z.of_nat 0 |}.
Proof.
  apply (proj1 (proj2 (X3_create_queues_range (cfg_v 7)
                         ltac:(by vm_compute)))).
  by vm_compute.
Defined.

(** X4: [configure_flow_steering] succeeds exactly when one of its two
    rules is installed: it issues the 5-tuple command first and the
    3-tuple command only when the first failed, returns 0 when either
    took effect and -1 when both failed, and never changes the globals. *)
Theorem X4_flow_rule_fallback (cfg : config) (e : flow_env) (g : globals) :
  (result_of (configure_flow_steering cfg e g) = Ok 0
   ↔ fl_tuple5 e = 0 ∨ fl_tuple3 e = 0)
  ∧ (result_of (configure_flow_steering cfg e g) = Ok (-1)
     ↔ fl_tuple5 e ≠ 0 ∧ fl_tuple3 e ≠ 0)
  ∧ trace_of (configure_flow_steering cfg e g)
    = EvRun (CmdFlow5 (client_ip cfg) (start_queue cfg))
      :: (if decide (fl_tuple5 e = 0) then []
          else [EvRun (CmdFlow3 (start_queue cfg))])
  ∧ globals_of (configure_flow_steering cfg e g) = g.
Proof.
  rewrite configure_flow_steering_run.
  unfold result_of, trace_of, globals_of, flow_ret, flow_trace. simpl.
  destruct (decide (fl_tuple5 e = 0)) as [H5|H5];
    [rewrite (proj2 (Z.eqb_eq _ _) H5)|rewrite (proj2 (Z.eqb_neq _ _) H5)];
    destruct (fl_tuple3 e =? 0) eqn:E3;
    rewrite ?Z.eqb_eq, ?Z.eqb_neq in *;
    repeat split; try done; intuition congruence.
Qed.

Lemma bind_tx_queue_run idx fd e g :
  bind_tx_queue idx fd e g
  = (Ok (bind_ret e),
     (match bind_id e with Some id => set_tx_dmabuf_id id g | None => g end),
     if b_sock e
     then EvBindTx idx fd
          :: match b_rsp e with
             | None => [EvLog "netdev_bind_tx"; EvLog "YNL failed"; EvSockDestroy]
             | Some (false, _) =>
                 [EvLog "id not present"; EvLog "YNL failed"; EvSockDestroy]
             | Some (true, _) => [EvLog "got tx dmabuf id"]
             end
     else [EvLog "YNL: session"]).
Proof.
  unfold bind_tx_queue, bind_ret, bind_id.
  destruct (b_sock e); [|done]. simpl.
  destruct (b_rsp e) as [[[] id]|]; done.
Qed.

(** X5: the netlink session of [bind_rx_queue] outlives the call exactly
    when the bind succeeds.  On success the global [dmabuf_id] is the id
    of the response, [tx_dmabuf_id] is untouched and the session is not
    destroyed; on a refused bind or a response without id the session is
    destroyed as the last action and the globals are unchanged; when the
    session cannot be created no request is issued at all. *)
Theorem X5_bind_rx_session (idx fd : Z) (queues : list netdev_queue_id)
    (n : Z) (e : bind_env) (g : globals) :
  let run := bind_rx_queue idx fd queues n e g in
  (result_of run = Ok 0 →
   ∃ id, b_rsp e = Some (true, id)
         ∧ dmabuf_id (globals_of run) = id
         ∧ tx_dmabuf_id (globals_of run) = tx_dmabuf_id g
         ∧ errors (globals_of run) = errors g
         ∧ EvSockDestroy ∉ trace_of run)
  ∧ (result_of run ≠ Ok 0 →
     result_of run = Ok (-1) ∧ globals_of run = g
     ∧ (b_sock e = true → last (trace_of run) = Some EvSockDestroy)
     ∧ (b_sock e = false → trace_of run = [EvLog "YNL: session"])).
Proof.
  cbv zeta. rewrite bind_rx_queue_run.
  unfold result_of, globals_of, trace_of, bind_ret, bind_id, bind_failure_log.
  simpl.
  destruct (b_sock e); [destruct (b_rsp e) as [[[] id]|]|]; simpl; split;
    try done.
  - intros _. exists id. repeat (split; [done|]).
    intros H. repeat (apply elem_of_cons in H as [H|H]; [done|]).
    by apply elem_of_nil in H.
Qed.

Lemma X5_bind_rx_session_witness :
  (∃ id, b_rsp (bind_answers 7) = Some (true, id)
         ∧ dmabuf_id (globals_of (bind_rx_queue 3 5 [] 0 (bind_answers 7) g0))
           = id
         ∧ tx_dmabuf_id
             (globals_of (bind_rx_queue 3 5 [] 0 (bind_answers 7) g0))
           = tx_dmabuf_id g0
         ∧ errors (globals_of (bind_rx_queue 3 5 [] 0 (bind_answers 7) g0))
           = errors g0
         ∧ EvSockDestroy
           ∉ trace_of (bind_rx_queue 3 5 [] 0 (bind_answers 7) g0))
  ∧ last (trace_of (bind_rx_queue 3 5 [] 0 bind_refused g0))
    = Some EvSockDestroy.
Proof.
  split.
  - apply (proj1 (X5_bind_rx_session 3 5 [] 0 (bind_answers 7) g0)).
    reflexivity.
  - apply (proj2 (X5_bind_rx_session 3 5 [] 0 bind_refused g0)).
    + discriminate.
    + reflexivity.
Defined.

(** X6: [bind_tx_queue] behaves like the RX bind on the TX id: on
    success [tx_dmabuf_id] is the id of the response, the RX [dmabuf_id]
    is untouched and the session stays open; on failure the globals are
    unchanged and the session, if it was created, is destroyed last. *)
Theorem X6_bind_tx_session (idx fd : Z) (e : bind_env) (g : globals) :
  let run := bind_tx_queue idx fd e g in
  (result_of run = Ok 0 →
   ∃ id, b_rsp e = Some (true, id)
         ∧ tx_dmabuf_id (globals_of run) = id
         ∧ dmabuf_id (globals_of run) = dmabuf_id g
         ∧ EvSockDestroy ∉ trace_of run)
  ∧ (result_of run ≠ Ok 0 →
     result_of run = Ok (-1) ∧ globals_of run = g
     ∧ (b_sock e = true → last (trace_of run) = Some EvSockDestroy)).
Proof.
  cbv zeta. rewrite bind_tx_queue_run.
  unfold result_of, globals_of, trace_of, bind_ret, bind_id. simpl.
  destruct (b_sock e); [destruct (b_rsp e) as [[[] id]|]|]; simpl; split;
    try done.
  - intros _. exists id. repeat (split; [done|]).
    intros H. repeat (apply elem_of_cons in H as [H|H]; [done|]).
    by apply elem_of_nil in H.
Qed.

Lemma X6_bind_tx_session_witness :
  (∃ id, b_rsp (bind_answers 9) = Some (true, id)
         ∧ tx_dmabuf_id (globals_of (bind_tx_queue 3 5 (bind_answers 9) g0))
           = id
         ∧ dmabuf_id (globals_of (bind_tx_queue 3 5 (bind_answers 9) g0))
           = dmabuf_id g0
         ∧ EvSockDestroy ∉ trace_of (bind_tx_queue 3 5 (bind_answers 9) g0))
  ∧ globals_of (bind_tx_queue 3 5 bind_refused g0) = g0.
Proof.
  split.
  - apply (proj1 (X6_bind_tx_session 3 5 (bind_answers 9) g0)). reflexivity.
  - apply (proj2 (X6_bind_tx_session 3 5 bind_refused g0)). discriminate.
Defined.

(** ** What the receive loop accumulates *)

Lemma process_good_frags mem frags st d g :
  Forall (good_frag g) frags →
  ∃ t, process_cmsgs mem frags st d g
       = (Ok (foldl (rx_step mem) st frags,
              match frags with [] => d | _ => true end), g, t).
Proof.
  intros H. revert st d. induction H as [|cm rest Hcm _ IH]; intros st d.
  - by exists [].
  - destruct Hcm as (Hd & Hid & Hret). cbn [process_cmsgs foldl].
    rewrite run_bind_prepend, (handle_cmsg_dmabuf _ _ _ _ _ Hd Hid).
    cbv zeta. rewrite Hret. change (1 =? 1) with true. cbv iota.
    cbn [fst snd]. fold (rx_step mem st cm).
    destruct (IH (rx_step mem st cm) true) as [t ->].
    eexists. unfold prepend. simpl. by destruct rest.
Qed.










Lemma rx_fold_counters mem frags st :
  endptr st ≠ SIZE_MAX →
  Forall (λ cm, 0 ≤ frag_offset (cmsg_data cm) ∧ 0 ≤ frag_size (cmsg_data cm)
                ∧ frag_offset (cmsg_data cm) + frag_size (cmsg_data cm)
                  < SIZE_MAX) frags →
  let st' := foldl (rx_step mem) st frags in
  page_aligned_frags st' = page_aligned_frags st + adjacent (endptr st) frags
  ∧ non_page_aligned_frags st'
    = non_page_aligned_frags st
      + (Z.of_nat (length frags) - adjacent (endptr st) frags).
Proof.
  intros He H. revert st He. induction H as [|cm rest Hcm _ IH];
    intros st He; cbv zeta.
  - simpl. lia.
  - cbn [foldl adjacent length]. set (c := cmsg_data cm) in *.
    destruct Hcm as (Ho & Hs & Hend).
    assert (E : (endptr st =? SIZE_MAX) = false) by by apply Z.eqb_neq.
    assert (He1 : endptr (rx_step mem st cm) = frag_offset c + frag_size c).
    { unfold rx_step, add_received, account_frag. simpl. fold c. rewrite E.
      unfold SIZE_MAX in *.
      destruct (endptr st =? frag_offset c) eqn:E2; simpl.
      - apply Z.eqb_eq in E2. rewrite E2. apply wrap64_small. lia.
      - apply wrap64_small. lia. }
    assert (Hp : page_aligned_frags (rx_step mem st cm)
                 = page_aligned_frags st
                   + (if endptr st =? frag_offset c then 1 else 0)
                 ∧ non_page_aligned_frags (rx_step mem st cm)
                   = non_page_aligned_frags st
                     + (if endptr st =? frag_offset c then 0 else 1)).
    { unfold rx_step, add_received, account_frag. simpl. fold c. rewrite E.
      by destruct (endptr st =? frag_offset c). }
    destruct Hp as [Hp1 Hp2].
    destruct (IH (rx_step mem st cm) ltac:(rewrite He1; lia)) as [IH1 IH2].
    rewrite He1 in IH1, IH2. rewrite IH1, IH2, Hp1, Hp2.
    destruct (endptr st =? frag_offset c); lia.
Qed.

(** X8: the contiguity accounting.  Over the DMABUF fragments processed
    since the start, with fragment ends below [(size_t)-1] (the value the
    code uses for "no fragment yet"), the first fragment is counted in
    neither counter, [page_aligned_frags] is the number of later
    fragments whose offset equals the end of their predecessor, and
    [non_page_aligned_frags] is the number of the other later fragments:
    together they count every fragment but the first. *)
Theorem X8_contiguity_counters (mem : memory_buffer) (cm : cmsghdr)
    (rest : list cmsghdr) (d : bool) (g : globals) :
  Forall (good_frag g) (cm :: rest) →
  Forall (λ cm, 0 ≤ frag_offset (cmsg_data cm) ∧ 0 ≤ frag_size (cmsg_data cm)
                ∧ frag_offset (cmsg_data cm) + frag_size (cmsg_data cm)
                  < SIZE_MAX) (cm :: rest) →
  ∃ st' d',
    result_of (process_cmsgs mem (cm :: rest) rx_init d g) = Ok (st', d')
    ∧ page_aligned_frags st'
      = adjacent (frag_offset (cmsg_data cm) + frag_size (cmsg_data cm)) rest
    ∧ page_aligned_frags st' + non_page_aligned_frags st'
      = Z.of_nat (length rest).
Proof.
  intros Hg Hb.
  destruct (process_good_frags mem (cm :: rest) rx_init d g Hg) as [t Hrun].
  rewrite Hrun. do 2 eexists. split; [reflexivity|].
  cbn [foldl]. apply Forall_cons in Hb as [(Ho & Hs & Hend) Hb].
  assert (He1 : endptr (rx_step mem rx_init cm)
                = frag_offset (cmsg_data cm) + frag_size (cmsg_data cm)).
  { unfold rx_step, add_received, account_frag, rx_init. simpl.
    unfold SIZE_MAX in *. apply wrap64_small. lia. }
  destruct (rx_fold_counters mem rest (rx_step mem rx_init cm)
              ltac:(rewrite He1; lia) Hb) as [H1 H2].
  rewrite He1 in H1, H2. rewrite H1, H2.
  unfold rx_step, add_received, account_frag, rx_init. simpl. lia.
Qed.

Lemma X8_contiguity_witness :
  ∃ st' d',
    result_of (process_cmsgs mem_ramp
                 [frag 7 0 100 1 1; frag 7 100 50 2 1; frag 7 4096 10 3 1]
                 rx_init false (g_bound 7)) = Ok (st', d')
    ∧ page_aligned_frags st' = 1
    ∧ page_aligned_frags st' + non_page_aligned_frags st' = 2.
Proof.
  apply (X8_contiguity_counters mem_ramp (frag 7 0 100 1 1)
           [frag 7 100 50 2 1; frag 7 4096 10 3 1] false (g_bound 7)).
  - repeat constructor.
  - repeat constructor; by vm_compute.
Defined.

(** ** How the receive loop ends *)

Lemma process_cmsgs_other mem cms st d g :
  Forall not_devmem cms →
  process_cmsgs mem cms st d g
  = (Ok (st, d), g,
     replicate (length cms) (EvLog "skipping non-devmem cmsg")).
Proof.
  intros H. induction H as [|cm rest Hcm _ IH]; [done|].
  cbn [process_cmsgs].
  rewrite (run_bind_ok _ _ _ _ _ _ (handle_cmsg_other mem cm st d g Hcm)).
  simpl. rewrite IH. done.
Qed.

(** X9: received data without a devmem descriptor is fatal.  When a
    receive returns a positive count and none of its control messages is
    a socket-level DMABUF or LINEAR descriptor, each of them is skipped
    and the process ends with "flow steering error"; nothing is copied
    and no token is returned. *)
Theorem X9_no_devmem_descriptor_is_fatal (mem : memory_buffer) (m : recv_env)
    (rest : list recv_env) (st : rx_state) (g : globals) :
  0 < rv_ret m → Forall not_devmem (rv_cmsgs m) →
  recv_loop mem (m :: rest) st g
  = (Stop (Exit 1 "flow steering error"), g,
     EvRecvmsg :: EvLog "recvmsg_ret"
     :: replicate (length (rv_cmsgs m)) (EvLog "skipping non-devmem cmsg")).
Proof.
  intros Hpos Hno. cbn [recv_loop]. rewrite run_emit.
  assert (H1 : (rv_ret m <? 0) = false) by (apply Z.ltb_ge; lia).
  assert (H2 : (rv_ret m =? 0) = false) by (apply Z.eqb_neq; lia).
  rewrite H1, H2. cbn [andb]. rewrite run_emit.
  rewrite (run_bind_ok _ _ _ _ _ _ (process_cmsgs_other mem _ st false g Hno)).
  cbn [fst snd negb]. rewrite run_fatal_if. unfold prepend. simpl.
  by rewrite app_nil_r.
Qed.

Lemma X9_no_devmem_witness :
  recv_loop mem0 (received 64 0 [timestamp_cmsg] :: [peer_closed]) rx_init
    (g_bound 7)
  = (Stop (Exit 1 "flow steering error"), g_bound 7,
     [EvRecvmsg; EvLog "recvmsg_ret"; EvLog "skipping non-devmem cmsg"]).
Proof.
  apply (X9_no_devmem_descriptor_is_fatal mem0
           (received 64 0 [timestamp_cmsg]) [peer_closed] rx_init (g_bound 7)).
  - reflexivity.
  - constructor; [right; split; discriminate|constructor].
Defined.

(** The loop is left normally only by a receive that returns 0. *)
Lemma recv_loop_ok mem msgs st g st' :
  result_of (recv_loop mem msgs st g) = Ok st' →
  ∃ pre m post, msgs = pre ++ m :: post ∧ rv_ret m = 0
                ∧ Forall (λ x, rv_ret x ≠ 0) pre.
Proof.
  revert st g. induction msgs as [|m rest IH]; intros st g; [done|].
  assert (Hrec : ∀ t st1 g1, rv_ret m ≠ 0 →
            result_of (prepend t (recv_loop mem rest st1 g1)) = Ok st' →
            ∃ pre m0 post, m :: rest = pre ++ m0 :: post ∧ rv_ret m0 = 0
                           ∧ Forall (λ x, rv_ret x ≠ 0) pre).
  { intros t st1 g1 Hne H. rewrite prepend_result in H.
    destruct (IH _ _ H) as (pre & m0 & post & -> & H0 & Hpre).
    exists (m :: pre), m0, post. split; [done|]. split; [done|].
    by constructor. }
  cbn [recv_loop]. rewrite run_emit, prepend_result.
  destruct (rv_ret m <? 0) eqn:En.
  { apply Z.ltb_lt in En.
    destruct ((rv_errno m =? EAGAIN) || (rv_errno m =? EWOULDBLOCK));
      cbn [andb].
    - intros H. apply (Hrec [] st g); [lia|done].
    - rewrite run_emit. apply Hrec. lia. }
  cbn [andb]. destruct (rv_ret m =? 0) eqn:E0.
  { intros _. apply Z.eqb_eq in E0. exists [], m, rest. by repeat split. }
  apply Z.eqb_neq in E0. rewrite run_emit, prepend_result, run_bind_prepend.
  destruct (process_cmsgs mem (rv_cmsgs m) st false g) as [[[a|h] g1] t1];
    [|done].
  rewrite prepend_result, run_fatal_if.
  destruct (negb a.2); [done|]. apply (Hrec [] a.1 g1). done.
Qed.

(** X10: [do_server] returns only after the peer has closed the
    connection, and then it returns 0 with its resources released: a
    normal return implies that a receive returned 0 and that all receives
    before it returned something else, and the last actions of the run
    are the release of the staging memory, the close of the accepted and
    of the listening socket, and the destruction of the netlink session
    that holds the binding. *)
Theorem X10_server_returns_after_peer_close (cfg : config)
    (mem : memory_buffer) (e : server_env) (g : globals) (r : Z) :
  result_of (do_server cfg mem e g) = Ok r →
  r = 0
  ∧ (∃ pre m post, se_msgs e = pre ++ m :: post ∧ rv_ret m = 0
                   ∧ Forall (λ x, rv_ret x ≠ 0) pre)
  ∧ ∃ t, trace_of (do_server cfg mem e g)
         = t ++ [EvFree; EvClose (se_accept e); EvClose (se_socket e);
                 EvSockDestroy].
Proof.
  unfold do_server. rewrite run_bind_prepend.
  destruct (server_setup cfg mem e g) as [[[[]|h] g1] t1]; [|done].
  rewrite prepend_result, prepend_trace, run_bind_prepend.
  destruct (server_listen e g1) as [[[[]|h] g2] t2]; [|done].
  rewrite prepend_result, prepend_trace, run_bind_prepend.
  destruct (recv_loop mem (se_msgs e) rx_init g2) as [[[st|h] g3] t3] eqn:El;
    [|done].
  rewrite prepend_result, prepend_trace, server_cleanup_run.
  unfold result_of, trace_of. simpl. intros [= <-]. split; [done|]. split.
  - apply (recv_loop_ok mem (se_msgs e) rx_init g2 st). by rewrite El.
  - exists (t1 ++ t2 ++ t3
            ++ [EvLog "ncdevmem: ok";
                EvLog "page_aligned_frags, non_page_aligned_frags"]).
    by rewrite <- !app_assoc.
Qed.

Lemma X10_server_returns_witness :
  0 = 0
  ∧ (∃ pre m post, msgs0 = pre ++ m :: post ∧ rv_ret m = 0
                   ∧ Forall (λ x, rv_ret x ≠ 0) pre)
  ∧ ∃ t, trace_of (do_server cfg0 mem0 (server_env0 (bind_answers 7) msgs0) g0)
         = t ++ [EvFree; EvClose 6; EvClose 4; EvSockDestroy].
Proof.
  apply (X10_server_returns_after_peer_close cfg0 mem0
           (server_env0 (bind_answers 7) msgs0) g0 0).
  by vm_compute.
Defined.

(** ** The self-test as a whole *)

(** X12: the self-test as written cannot pass.  [run_devmem_tests]
    sets its buffer pointer to NULL and reads [mem->fd] for the first
    bind: for every answer of the kernel the run ends either with an
    error message of the RSS or header-split step, or at that read, and
    no bind request is ever issued. *)
Theorem X12_self_test_never_passes (cfg : config) (e : tests_env)
    (g : globals) :
  ((∃ msg, result_of (run_devmem_tests cfg e g) = Stop (Exit 1 msg))
   ∨ result_of (run_devmem_tests cfg e g)
     = Stop (Undefined "mem->fd with mem == NULL"))
  ∧ ∀ idx fd qs n, EvBindRx idx fd qs n ∉ trace_of (run_devmem_tests cfg e g).
Proof.
  unfold run_devmem_tests. cbv zeta.
  rewrite (run_check_nz _ _ _ _ _ _ _ (configure_rss_run _ _ _)).
  destruct (te_rss e =? 0).
  2:{ split; [left; by eexists|]. intros idx fd qs n H.
      apply list_elem_of_singleton in H. done. }
  rewrite (run_check_nz _ _ _ _ _ _ _ (configure_headersplit_run _ _ _ _)).
  assert (Hh : ∀ idx fd qs n,
            EvBindRx idx fd qs n ∉ headersplit_trace cfg true (te_split_on e)).
  { intros idx fd qs n. unfold headersplit_trace, readback_log.
    destruct (hs_sock (te_split_on e)), (hs_set_ret (te_split_on e) <? 0),
      (hs_set_ret (te_split_on e) =? 0), (hs_get_rsp (te_split_on e));
      simpl; intros H;
      repeat (apply elem_of_cons in H as [H|H]; [done|]);
      by apply elem_of_nil in H. }
  destruct ((if hs_sock (te_split_on e) then hs_set_ret (te_split_on e)
             else -1) =? 0).
  - unfold prepend. simpl. split; [by right|].
    intros idx fd qs n H. rewrite app_nil_r in H.
    apply elem_of_cons in H as [H|H]; [done|]. by apply Hh in H.
  - unfold prepend. simpl. split; [left; by eexists|].
    intros idx fd qs n H.
    apply elem_of_cons in H as [H|H]; [done|]. by apply Hh in H.
Qed.

(** ** Queue selection in main *)

Lemma rxq_num_run e g :
  ∃ t, rxq_num e g = (Ok (rxq_value e), g, t).
Proof.
  unfold rxq_num, rxq_value. destruct (ch_sock e); simpl; by eexists.
Qed.

(** The queue pair [main] computes when neither -t nor -q is given. *)
Lemma main_default_queues (selftest : bool) e1 e2 g :
  let block : M (Z * Z) :=
    if selftest then
      n ← rxq_num e1 ;
      fatal_if (n <? 0) "couldn't detect number of queues" ;;
      fatal_if (n <? 2) "number of device queues is too low" ;;
      mret (Z.quot n 2, Z.quot n 2)
    else
      n ← rxq_num e1 ;
      fatal_if (n <? 2) "number of device queues is too low" ;;
      n2 ← rxq_num e2 ;
      fatal_if (n2 - 1 <? 0) "couldn't detect number of queues" ;;
      emit (EvLog "using queues") ;;
      mret (n2 - 1, 1) in
  (∃ msg, result_of (block g) = Stop (Exit 1 msg))
  ∨ (globals_of (block g) = g
     ∧ if selftest then
         2 ≤ rxq_value e1
         ∧ result_of (block g)
           = Ok (rxq_value e1 / 2, rxq_value e1 / 2)
       else
         2 ≤ rxq_value e1 ∧ 1 ≤ rxq_value e2
         ∧ result_of (block g) = Ok (rxq_value e2 - 1, 1)).
Proof.
  cbv zeta. destruct (rxq_num_run e1 g) as [t1 H1].
  destruct selftest.
  - rewrite (run_bind_ok _ _ _ _ _ _ H1), prepend_result, prepend_globals.
    rewrite run_fatal_if.
    destruct (rxq_value e1 <? 0) eqn:E0; [left; by eexists|].
    rewrite run_fatal_if.
    destruct (rxq_value e1 <? 2) eqn:E2; [left; by eexists|].
    apply Z.ltb_ge in E2. right. split; [done|]. split; [done|].
    unfold result_of. simpl. by rewrite Z.quot_div_nonneg by lia.
  - rewrite (run_bind_ok _ _ _ _ _ _ H1), prepend_result, prepend_globals.
    rewrite run_fatal_if.
    destruct (rxq_value e1 <? 2) eqn:E2; [left; by eexists|].
    apply Z.ltb_ge in E2.
    destruct (rxq_num_run e2 g) as [t2 H2].
    rewrite (run_bind_ok _ _ _ _ _ _ H2), prepend_result, prepend_globals.
    rewrite run_fatal_if.
    destruct (rxq_value e2 - 1 <? 0) eqn:E3; [left; by eexists|].
    apply Z.ltb_ge in E3. right. split; [done|]. split; [done|].
    split; [lia|done].
Qed.

(** A branch of [main] that ends with an error message. *)
Ltac exits := split; [right; by eexists|intros ? ? ? [=]].

(** X13: what [main] dispatches with.  It ends with an error message or
    it dispatches, and then neither [start_queue] nor [num_queues] is
    negative; it runs the self-test exactly when neither -s nor -c is
    given.  Queue options given on the command line are used as they
    are, so giving only one of -t and -q is an error.  With both absent,
    the self-test takes the upper half of the device's queues (start and
    count both half the total, with at least one queue left below for
    RSS), and the data roles take one queue, the last one reported by the
    second query of the device. *)
Theorem X13_main_queue_selection (o : options) (e1 e2 : channels_env)
    (g : globals) :
  ((∃ x, result_of (main_prepare o e1 e2 g) = Ok x)
   ∨ ∃ msg, result_of (main_prepare o e1 e2 g) = Stop (Exit 1 msg))
  ∧ ∀ ro s n,
      result_of (main_prepare o e1 e2 g) = Ok (ro, s, n) →
      0 ≤ s ∧ 0 ≤ n
      ∧ (ro = SelfTest ↔ o_server_ip o = false ∧ o_client_ip o = false)
      ∧ (0 ≤ o_start_queue o ∨ 0 ≤ o_num_queues o →
         s = o_start_queue o ∧ n = o_num_queues o)
      ∧ (o_start_queue o < 0 → o_num_queues o < 0 → ro = SelfTest →
         2 ≤ rxq_value e1 ∧ s = rxq_value e1 / 2 ∧ n = rxq_value e1 / 2
         ∧ 1 ≤ s ∧ 1 ≤ n ∧ s + n ≤ rxq_value e1)
      ∧ (o_start_queue o < 0 → o_num_queues o < 0 → ro ≠ SelfTest →
         n = 1 ∧ s = rxq_value e2 - 1).
Proof.
  unfold main_prepare. rewrite run_fatal_if.
  destruct (o_ifname o); cbn [negb]; [|exits].
  destruct (negb (o_server_ip o) && negb (o_client_ip o)) eqn:Emode.
  - (* self-test *)
    assert (Hm : o_server_ip o = false ∧ o_client_ip o = false).
    { apply andb_true_iff in Emode as [H1 H2].
      by apply negb_true_iff in H1, H2. }
    rewrite run_bind_prepend.
    destruct ((o_start_queue o <? 0) && (o_num_queues o <? 0)) eqn:Edef.
    + apply andb_true_iff in Edef as [Et Eq]. apply Z.ltb_lt in Et, Eq.
      pose proof (main_default_queues true e1 e2 g) as Hd. cbv zeta in Hd.
      cbn iota in Hd.
      destruct ((rxq_num e1 ≫= _) g) as [[r gb] tb].
      unfold result_of, globals_of in Hd. simpl in Hd.
      destruct Hd as [[msg ->]|(-> & H2 & ->)]; [exits|].
      rewrite prepend_result, run_fatal_if. cbn [fst snd].
      assert (Hh : 1 ≤ rxq_value e1 / 2) by (apply Z.div_le_lower_bound; lia).
      assert (Hs : rxq_value e1 / 2 + rxq_value e1 / 2 ≤ rxq_value e1).
      { pose proof (Z.mul_div_le (rxq_value e1) 2 ltac:(lia)). lia. }
      assert (E : (rxq_value e1 / 2 <? 0) = false) by (apply Z.ltb_ge; lia).
      rewrite E. cbn [orb]. split; [left; by eexists|].
      intros ro s n [= <- <- <-]. repeat split; try lia; try done; try tauto.
    + cbn [mret M_ret Mret]. rewrite prepend_result, run_fatal_if.
      cbn [fst snd].
      destruct ((o_start_queue o <? 0) || (o_num_queues o <? 0)) eqn:Eneg;
        [exits|].
      apply orb_false_iff in Eneg as [Et Eq]. apply Z.ltb_ge in Et, Eq.
      split; [left; by eexists|].
      intros ro s n [= <- <- <-]. repeat split; try lia; try done; try tauto.
  - (* listener or sender *)
    assert (Hm : ¬ (o_server_ip o = false ∧ o_client_ip o = false)).
    { intros [H1 H2]. rewrite H1, H2 in Emode. discriminate Emode. }
    assert (Hro : ∀ ro, ro = (if o_is_server o then Listener else Sender) →
                        ro ≠ SelfTest)
      by (intros ro ->; by destruct (o_is_server o)).
    rewrite run_bind_prepend.
    destruct ((o_start_queue o <? 0) && (o_num_queues o <? 0)) eqn:Edef.
    + apply andb_true_iff in Edef as [Et Eq]. apply Z.ltb_lt in Et, Eq.
      pose proof (main_default_queues false e1 e2 g) as Hd. cbv zeta in Hd.
      cbn iota in Hd.
      destruct ((rxq_num e1 ≫= _) g) as [[r gb] tb].
      unfold result_of, globals_of in Hd. simpl in Hd.
      destruct Hd as [[msg ->]|(-> & H2 & H3 & ->)]; [exits|].
      rewrite prepend_result, !run_fatal_if. cbn [fst snd].
      assert (E : (rxq_value e2 - 1 <? 0) = false) by (apply Z.ltb_ge; lia).
      rewrite E. change (1 <? 0) with false. cbv iota.
      destruct (o_server_ip o); cbn [negb]; [|exits].
      destruct (o_port o); cbn [negb]; [|exits].
      split; [left; by eexists|].
      intros ro s n [= <- <- <-]. specialize (Hro _ eq_refl).
      repeat split; try lia; try done; try tauto.
    + cbn [mret M_ret Mret]. rewrite prepend_result, !run_fatal_if.
      cbn [fst snd]. apply andb_false_iff in Edef.
      destruct (o_start_queue o <? 0) eqn:Et; [exits|].
      destruct (o_num_queues o <? 0) eqn:Eq; [exits|].
      apply Z.ltb_ge in Et, Eq.
      destruct (o_server_ip o); cbn [negb]; [|exits].
      destruct (o_port o); cbn [negb]; [|exits].
      split; [left; by eexists|].
      intros ro s n [= <- <- <-]. specialize (Hro _ eq_refl).
      repeat split; try lia; try done; try tauto.
Qed.

Lemma X13_main_queue_witness :
  (2 ≤ rxq_value (channels 0 8) ∧ 4 = rxq_value (channels 0 8) / 2
   ∧ 4 = rxq_value (channels 0 8) / 2 ∧ 1 ≤ 4 ∧ 1 ≤ 4
   ∧ 4 + 4 ≤ rxq_value (channels 0 8))
  ∧ (1 = 1 ∧ 7 = rxq_value (channels 0 8) - 1)
  ∧ (3 = o_start_queue (opts true 3 2) ∧ 2 = o_num_queues (opts true 3 2)).
Proof.
  split; [|split].
  - apply (proj2 (X13_main_queue_selection (opts false (-1) (-1))
                    (channels 0 8) (channels 0 8) g0) SelfTest 4 4);
      by vm_compute.
  - apply (proj2 (X13_main_queue_selection (opts true (-1) (-1))
                    (channels 0 8) (channels 0 8) g0) Listener 7 1);
      by vm_compute.
  - apply (proj2 (X13_main_queue_selection (opts true 3 2)
                    (channels 0 8) (channels 0 8) g0) Listener 3 2).
    + by vm_compute.
    + left. by vm_compute.
Defined.

(** ** parse_address *)

(** X14: [parse_address] on an IPv4 literal yields the IPv4-mapped IPv6
    address: when the string is no IPv6 address but parses as IPv4 to the
    bytes [v], the call succeeds and every byte of the address is
    determined, whatever the structure held before: ten zero bytes, two
    bytes 0xff, then [v]; the flow rule is then installed with type tcp4.
    A string that parses as IPv6 is taken as it is, and the call fails
    exactly when the string is neither. *)
Theorem X14_parse_address_v4_mapped (e : pton_env) (port : Z)
    (addr0 : list Z) :
  length addr0 = 16%nat →
  (∀ v, pton6 e = None → pton4 e = Some v → length v = 4%nat →
        parse_address e port addr0
        = (0, {| sin6_port := htons_bytes port;
                 sin6_addr := replicate 10 0 ++ [255; 255] ++ v |})
        ∧ flow_type (parse_address e port addr0).2 = "tcp4")
  ∧ (∀ a, pton6 e = Some a →
          parse_address e port addr0
          = (0, {| sin6_port := htons_bytes port; sin6_addr := a |}))
  ∧ ((parse_address e port addr0).1 = -1
     ↔ pton6 e = None ∧ pton4 e = None).
Proof.
  intros Hlen. split; [|split].
  - intros v H6 H4 Hv. unfold parse_address. rewrite H6, H4.
    do 17 (destruct addr0 as [|? addr0]; try discriminate Hlen).
    do 5 (destruct v as [|? v]; try discriminate Hv).
    split; reflexivity.
  - intros a H6. unfold parse_address. by rewrite H6.
  - unfold parse_address.
    destruct (pton6 e), (pton4 e); simpl; split; try done;
      intros [? ?]; done.
Qed.

Lemma X14_parse_address_witness :
  parse_address {| pton6 := None; pton4 := Some [192; 168; 1; 2] |} 5201
    (replicate 16 170)
  = (0, {| sin6_port := htons_bytes 5201;
           sin6_addr := replicate 10 0 ++ [255; 255] ++ [192; 168; 1; 2] |})
  ∧ flow_type
      (parse_address {| pton6 := None; pton4 := Some [192; 168; 1; 2] |} 5201
         (replicate 16 170)).2 = "tcp4".
Proof.
  apply (proj1 (X14_parse_address_v4_mapped
                  {| pton6 := None; pton4 := Some [192; 168; 1; 2] |} 5201
                  (replicate 16 170) eq_refl));
    reflexivity.
Defined.

(** ** The payload vector covers the payload *)

Lemma total_len_app v1 v2 : total_len (v1 ++ v2) = total_len v1 + total_len v2.
Proof. induction v1 as [|s v1 IH]; simpl; [done|]. rewrite IH. lia. Qed.

Lemma contiguous_from_app start v1 v2 :
  contiguous_from start v1 → contiguous_from (start + total_len v1) v2 →
  contiguous_from start (v1 ++ v2).
Proof.
  revert start. induction v1 as [|s v1 IH]; intros start H1 H2; simpl in *.
  - by rewrite Z.add_0_r in H2.
  - destruct H1 as [Hb H1]. split; [done|]. apply IH; [done|].
    by rewrite Z.add_assoc in H2.
Qed.

(** Full chunks from index [a] on. *)
Lemma full_chunks C (k : nat) a base f :
  (∀ i, a ≤ i < a + Z.of_nat k →
        f i = {| iov_base := base + i * C; iov_len := C |}) →
  total_len (f <$> seqZ a (Z.of_nat k)) = Z.of_nat k * C
  ∧ contiguous_from (base + a * C) (f <$> seqZ a (Z.of_nat k))
  ∧ Forall (λ s, iov_len s = C) (f <$> seqZ a (Z.of_nat k)).
Proof.
  revert a. induction k as [|k IH]; intros a Hf.
  - simpl. split; [lia|]. split; [done|constructor].
  - rewrite seqZ_cons by lia.
    replace (Z.pred (Z.of_nat (S k))) with (Z.of_nat k) by lia.
    cbn [fmap list_fmap total_len foldr contiguous_from].
    destruct (IH (Z.succ a) ltac:(intros i Hi; apply Hf; lia))
      as (IH1 & IH2 & IH3).
    rewrite (Hf a) by lia. simpl.
    fold (total_len (f <$> seqZ (Z.succ a) (Z.of_nat k))).
    rewrite IH1. split; [lia|]. split.
    + split; [done|].
      replace (base + a * C + C) with (base + Z.succ a * C) by lia. done.
    + by constructor.
Qed.

(** A run of full chunks and a last chunk of [last] bytes covers
    [(n - 1) * C + last] bytes from [base] on. *)
Lemma tiles C n base last f :
  1 ≤ n →
  (∀ i, 0 ≤ i < n - 1 → f i = {| iov_base := base + i * C; iov_len := C |}) →
  f (n - 1) = {| iov_base := base + (n - 1) * C; iov_len := last |} →
  total_len (f <$> seqZ 0 n) = (n - 1) * C + last
  ∧ contiguous_from base (f <$> seqZ 0 n).
Proof.
  intros Hn Hf Hl.
  assert (Hsplit : f <$> seqZ 0 n
                   = (f <$> seqZ 0 (Z.of_nat (Z.to_nat (n - 1))))
                     ++ [f (n - 1)]).
  { replace n with (Z.of_nat (Z.to_nat (n - 1)) + 1) at 1 by lia.
    rewrite seqZ_app by lia. rewrite fmap_app.
    replace (0 + Z.of_nat (Z.to_nat (n - 1))) with (n - 1) by lia. done. }
  destruct (full_chunks C (Z.to_nat (n - 1)) 0 base f
              ltac:(intros i Hi; apply Hf; lia)) as (H1 & H2 & _).
  rewrite Z2Nat.id in H1, H2, Hsplit by lia.
  rewrite Hsplit, total_len_app, H1, Hl. simpl. split; [lia|].
  apply contiguous_from_app.
  - by rewrite Z.mul_0_l, Z.add_0_r in H2.
  - rewrite H1. simpl. done.
Qed.

(** A chunked payload of [L] bytes covers [L] bytes from offset 0. *)
Lemma chunked_covers C L :
  0 < C → 0 < L →
  total_len (chunked C L ((L + C - 1) / C)) = L
  ∧ contiguous_from 0 (chunked C L ((L + C - 1) / C)).
Proof.
  intros HC HL.
  destruct (ceil_div_bounds C L HC HL) as (Hn1 & Hlo & Hhi).
  unfold chunked. set (n := (L + C - 1) / C) in *.
  destruct (tiles C n 0 (L - (n - 1) * C)
              (λ i, {| iov_base := i * C;
                       iov_len := if i =? n - 1 then L - (n - 1) * C
                                  else C |}) Hn1) as [H1 H2].
  - intros i Hi. simpl.
    assert (E : (i =? n - 1) = false) by (apply Z.eqb_neq; lia).
    by rewrite E.
  - simpl. by rewrite Z.eqb_refl.
  - split; [lia|done].
Qed.

(** X15: the segments of a chunked send cover the payload exactly.
    Under the conditions of a send with [max_chunk = C > 0] that is
    issued, the segments of the message lie one after the other from
    offset 0 without gap or overlap, their lengths add up to
    [line_size], and the array of [MAX_IOV] entries keeps its length. *)
Theorem X15_segments_cover_payload (C L : Z) (iov : list iovec) (g : globals) :
  length iov = Z.to_nat MAX_IOV → 0 < L < 2 ^ 63 → 0 < C < 2 ^ 63 →
  (L + C - 1) / C ≤ MAX_IOV →
  ∃ iov' n,
    build_iov C iov L g = (Ok (iov', n), g, [])
    ∧ length iov' = length iov
    ∧ total_len (segments iov' n) = L
    ∧ contiguous_from 0 (segments iov' n).
Proof.
  intros Hlen HL HC Hn.
  destruct (build_iov_chunked C iov L g HC HL Hlen Hn)
    as (iov' & Hrun & Hlen' & Hseg).
  exists iov', ((L + C - 1) / C). split; [done|]. split; [done|].
  rewrite Hseg. apply chunked_covers; lia.
Qed.

Lemma X15_segments_witness :
  ∃ iov' n,
    build_iov 4096 iov0 10000 g0 = (Ok (iov', n), g0, [])
    ∧ length iov' = length iov0
    ∧ total_len (segments iov' n) = 10000
    ∧ contiguous_from 0 (segments iov' n).
Proof.
  apply (X15_segments_cover_payload 4096 10000 iov0 g0); by vm_compute.
Defined.

(** ** What the producer loop sends *)

Lemma not_send_weaken (P : event → Prop) t :
  (∀ ev, not_send ev → P ev) → Forall not_send t → Forall P t.
Proof. intros H Ht. by eapply Forall_impl. Qed.

Lemma scan_errq_no_send cms g : Forall not_send (trace_of (scan_errq cms g)).
Proof.
  induction cms as [|cm rest IH]; cbn [scan_errq]; [constructor|].
  repeat (match goal with |- context [if ?c then _ else _] => destruct c end;
          [exact IH|]).
  cbv zeta. trace_forall.
Qed.

Lemma scan_errq_globals cms g : globals_of (scan_errq cms g) = g.
Proof.
  induction cms as [|cm rest IH]; cbn [scan_errq]; [done|].
  repeat (match goal with |- context [if ?c then _ else _] => destruct c end;
          [exact IH|]).
  cbv zeta. keeps_globals.
Qed.

Lemma wait_loop_globals tstop its g : globals_of (wait_loop tstop its g) = g.
Proof.
  induction its as [|it rest IH]; cbn [wait_loop]; [done|].
  destruct (negb (ce_now it <? tstop)); [done|].
  apply bind_globals; [unfold do_poll; keeps_globals|]. intros ready.
  destruct (negb ready); [exact IH|].
  apply bind_globals; [done|]. intros _.
  destruct (ce_recv_ret it <? 0).
  { destruct (ce_errno it =? EAGAIN); [exact IH|done]. }
  apply bind_globals; [apply globals_fatal_if|]. intros _.
  apply bind_globals; [apply scan_errq_globals|]. intros [r|]; [done|exact IH].
Qed.

Lemma wait_loop_no_send tstop its g :
  Forall not_send (trace_of (wait_loop tstop its g)).
Proof.
  revert g. induction its as [|it rest IH]; intros g; cbn [wait_loop];
    [constructor|].
  destruct (negb (ce_now it <? tstop)); [constructor|].
  apply bind_invariant; [unfold do_poll; trace_forall|]. intros ready _.
  destruct (negb ready); [apply IH|].
  apply bind_invariant; [by constructor|]. intros _ _.
  destruct (ce_recv_ret it <? 0).
  { destruct (ce_errno it =? EAGAIN); [apply IH|constructor]. }
  apply bind_invariant; [apply forall_fatal_if|]. intros _ _.
  apply bind_invariant; [apply scan_errq_no_send|]. intros [r|] _;
    [constructor|apply IH].
Qed.

Lemma build_iov_pure C iov L g :
  globals_of (build_iov C iov L g) = g ∧ trace_of (build_iov C iov L g) = [].
Proof.
  unfold build_iov. destruct (negb (C =? 0)); [|done]. cbv zeta.
  rewrite run_fatal_if. destruct (MAX_IOV <? _); [done|].
  destruct (_ =? 0); done.
Qed.

(** The segments of one iteration: whatever the loop body sends satisfies
    [P], once [P] holds of the payload vector [build_iov] returns. *)
Lemma client_loop_body_trace (P : event → Prop) cfg mem it st ls g :
  (∀ ev, not_send ev → P ev) →
  (∀ r, result_of (build_iov (max_chunk cfg) (tx_iov st)
                     (clamp_line_size mem (total_sended st) ls) g) = Ok r →
        P (EvSendmsg (segments r.1 r.2) (tx_dmabuf_id g))) →
  Forall P (trace_of (client_loop_body cfg mem it st ls g)).
Proof.
  intros HP Hsend. unfold client_loop_body. cbv zeta.
  destruct (build_iov_pure (max_chunk cfg) (tx_iov st)
              (clamp_line_size mem (total_sended st) ls) g) as [Hg Ht].
  apply bind_invariant; [rewrite Ht; constructor|]. intros r Hr.
  rewrite Hg.
  apply bind_invariant; [constructor; [by apply HP|constructor]|]. intros _ _.
  apply bind_invariant; [constructor|]. intros g' Hg'.
  injection Hg' as <-.
  apply bind_invariant; [constructor; [by apply Hsend|constructor]|].
  intros _ _.
  apply bind_invariant; [apply forall_fatal_if|]. intros _ _.
  apply bind_invariant;
    [apply not_send_weaken; [done|apply wait_loop_no_send]|].
  intros _ _. constructor.
Qed.

Lemma client_loop_body_globals cfg mem it st ls g :
  globals_of (client_loop_body cfg mem it st ls g) = g.
Proof.
  unfold client_loop_body. cbv zeta.
  apply bind_globals; [apply build_iov_pure|]. intros r.
  apply bind_globals; [done|]. intros _.
  apply bind_globals; [done|]. intros g'.
  apply bind_globals; [done|]. intros _.
  apply bind_globals; [apply globals_fatal_if|]. intros _.
  apply bind_globals; [apply wait_loop_globals|]. intros _. done.
Qed.

Lemma bind_ok_result {A B} (m : M A) (k : A → M B) g b :
  result_of ((m ≫= k) g) = Ok b →
  ∃ a, result_of (m g) = Ok a ∧ result_of (k a (globals_of (m g))) = Ok b.
Proof.
  unfold globals_of, result_of. rewrite run_bind.
  destruct (m g) as [[[a|h] g1] t1]; simpl; [|done].
  intros H. exists a. split; [done|]. by destruct (k a g1) as [[r g2] t2].
Qed.

(** What a completed iteration leaves in the locals. *)
Lemma client_loop_body_ok cfg mem it st ls g st' :
  result_of (client_loop_body cfg mem it st ls g) = Ok st' →
  ∃ r, result_of (build_iov (max_chunk cfg) (tx_iov st)
                    (clamp_line_size mem (total_sended st) ls) g) = Ok r
       ∧ 0 ≤ sn_sendmsg it
       ∧ st' = {| total_sended := wrap64 (total_sended st + sn_sendmsg it);
                  line_size := clamp_line_size mem (total_sended st) ls;
                  tx_iov := r.1 |}.
Proof.
  unfold client_loop_body. cbv zeta. intros H.
  apply bind_ok_result in H as (r & Hr & H). exists r. split; [done|].
  apply bind_ok_result in H as (? & _ & H).
  apply bind_ok_result in H as (g1 & _ & H).
  apply bind_ok_result in H as (? & _ & H).
  apply bind_ok_result in H as (? & Hf & H).
  apply bind_ok_result in H as (? & _ & H).
  injection H as <-. split; [|done].
  unfold fatal_if in Hf. destruct (sn_sendmsg it <? 0) eqn:E; [done|].
  by apply Z.ltb_ge in E.
Qed.

Lemma client_loop_trace (P : event → Prop) (I : tx_state → Prop)
    cfg mem its st g :
  (∀ ev, not_send ev → P ev) →
  (∀ it st ls,
     it ∈ its → I st → total_sended st < mb_size mem →
     ls = (if do_validation cfg =? 0 then sn_getline it else line_size st) →
     (do_validation cfg = 0 → 0 ≤ sn_getline it) →
     (∀ r, result_of (build_iov (max_chunk cfg) (tx_iov st)
                        (clamp_line_size mem (total_sended st) ls) g) = Ok r →
           P (EvSendmsg (segments r.1 r.2) (tx_dmabuf_id g))
           ∧ (0 ≤ sn_sendmsg it →
              I {| total_sended := wrap64 (total_sended st + sn_sendmsg it);
                   line_size := clamp_line_size mem (total_sended st) ls;
                   tx_iov := r.1 |}))) →
  I st → Forall P (trace_of (client_loop cfg mem its st g)).
Proof.
  intros HP Hstep. revert st.
  induction its as [|it rest IH]; intros st Hst; cbn [client_loop].
  - destruct (negb _); constructor.
  - destruct (total_sended st <? mb_size mem) eqn:Et; cbn [negb];
      [|constructor].
    apply Z.ltb_lt in Et.
    assert (Hbody : ∀ ls,
      ls = (if do_validation cfg =? 0 then sn_getline it else line_size st) →
      (do_validation cfg = 0 → 0 ≤ sn_getline it) →
      Forall P (trace_of ((st1 ← client_loop_body cfg mem it st ls ;
                           client_loop cfg mem rest st1) g))).
    { intros ls Hls Hget.
      pose proof (Hstep it st ls) as Hone.
      apply bind_invariant.
      - apply client_loop_body_trace; [done|]. intros r Hr.
        by apply Hone in Hr as [? _]; [|apply list_elem_of_here|..].
      - intros st1 Hst1. rewrite client_loop_body_globals.
        apply client_loop_body_ok in Hst1 as (r & Hr & Hs & ->).
        apply IH.
        + intros it0 st0 ls0 Hin. apply Hstep.
          by apply list_elem_of_further.
        + by apply Hone in Hr as [_ ?]; [auto|apply list_elem_of_here|..]. }
    destruct (do_validation cfg =? 0) eqn:Edv.
    + apply bind_invariant; [constructor; [by apply HP|constructor]|].
      intros _ _. change (globals_of (emit EvFree g)) with g.
      destruct (sn_getline it <? 0) eqn:Eg; [constructor|].
      apply Hbody; [done|]. intros _. by apply Z.ltb_ge in Eg.
    + apply Hbody; [done|]. intros H. apply Z.eqb_neq in Edv. done.
Qed.

Lemma bind_ok_inv {A B} (m : M A) (k : A → M B) g b :
  globals_of (m g) = g → result_of ((m ≫= k) g) = Ok b →
  ∃ a, result_of (k a g) = Ok b
       ∧ globals_of ((m ≫= k) g) = globals_of (k a g).
Proof.
  unfold globals_of, result_of. rewrite run_bind.
  destruct (m g) as [[[a|h] g1] t1]; simpl; [|done].
  intros -> H. exists a. by destruct (k a g) as [[r g2] t2].
Qed.

Lemma bind_tx_queue_no_send idx fd e g :
  Forall not_send (trace_of (bind_tx_queue idx fd e g)).
Proof.
  rewrite bind_tx_queue_run. unfold trace_of. simpl.
  destruct (b_sock e); [destruct (b_rsp e) as [[[] i]|]|];
    repeat constructor.
Qed.

Lemma client_setup_no_send cfg mem e g :
  Forall not_send (trace_of (client_setup cfg mem e g)).
Proof.
  unfold client_setup, enable_reuseaddr.
  repeat first
    [ apply forall_emit; done
    | apply forall_fatal_if
    | apply forall_mret
    | apply bind_tx_queue_no_send
    | apply bind_invariant; [|intros ? _]
    | match goal with |- context [if ?c then _ else _] => destruct c end ].
Qed.

Lemma client_setup_binds cfg mem e g :
  result_of (client_setup cfg mem e g) = Ok () →
  ∃ id, bind_id (cl_bind_tx e) = Some id
        ∧ tx_dmabuf_id (globals_of (client_setup cfg mem e g)) = id.
Proof.
  intros Hok. unfold client_setup in *.
  do 6 (apply bind_ok_inv in Hok as (? & Hok & ->);
        [|unfold enable_reuseaddr; keeps_globals]).
  rewrite (run_bind_ok _ _ _ _ _ _ (bind_tx_queue_run _ _ _ _)) in Hok |- *.
  rewrite prepend_result in Hok. rewrite prepend_globals.
  unfold bind_ret in *. destruct (bind_id (cl_bind_tx e)) as [id|].
  - exists id. split; [done|].
    change (negb (0 =? 0)) with false.
    match goal with
    | |- tx_dmabuf_id (globals_of (?m ?g)) = _ =>
        assert (Hg : globals_of (m g) = g)
    end.
    { keeps_globals. destruct (client_ip cfg); keeps_globals. }
    by rewrite Hg.
  - by rewrite run_fatal_if in Hok.
Qed.

(** X16: every [sendmsg] of [do_client] carries the id that the TX bind
    returned.  In the trace of a whole run, each [sendmsg] has as its
    [SCM_DEVMEM_DMABUF] id the id of the bind response; when the bind
    fails ([bind_id] is [None]) the run contains no [sendmsg] at all. *)
Theorem X16_sends_carry_bound_id (cfg : config) (mem : memory_buffer)
    (e : client_env) (g : globals) :
  Forall (sends_with (bind_id (cl_bind_tx e)))
    (trace_of (do_client cfg mem e g)).
Proof.
  assert (HP : ∀ id ev, not_send ev → sends_with id ev)
    by (by intros id []).
  unfold do_client.
  apply bind_invariant.
  { apply not_send_weaken; [apply HP|apply client_setup_no_send]. }
  intros [] Hok.
  destruct (client_setup_binds cfg mem e g Hok) as (id & -> & Hid).
  cbv zeta. apply bind_invariant.
  { apply (client_loop_trace _ (λ _, True)); [apply HP| |done].
    intros it st ls _ _ _ _ _ r _. split; [|done]. simpl. by rewrite Hid. }
  intros st _. trace_forall.
Qed.

Lemma X16_sends_witness :
  Forall (sends_with (Some 9))
    (trace_of (do_client cfg0 mem_small (client_env0 (bind_answers 9)) g0))
  ∧ EvSendmsg [ {| iov_base := 0; iov_len := 6 |} ] 9
    ∈ trace_of (do_client cfg0 mem_small (client_env0 (bind_answers 9)) g0)
  ∧ result_of (do_client cfg0 mem_small (client_env0 (bind_answers 9)) g0)
    = Ok 0.
Proof.
  split.
  - apply (X16_sends_carry_bound_id cfg0 mem_small
             (client_env0 (bind_answers 9)) g0).
  - vm_compute. split; [|reflexivity].
    repeat first [apply list_elem_of_here | apply list_elem_of_further].
Defined.

Lemma clamp_line_size_min mem total ls :
  0 ≤ total < mb_size mem → mb_size mem < 2 ^ 63 → 0 ≤ ls < 2 ^ 63 →
  clamp_line_size mem total ls = Z.min ls (mb_size mem - total).
Proof.
  intros Ht Hm Hl. unfold clamp_line_size.
  rewrite (wrap64_small (total + ls)) by lia.
  destruct (mb_size mem <=? total + ls) eqn:E.
  - apply Z.leb_le in E.
    unfold sign64. rewrite (wrap64_small (mb_size mem - total)) by lia.
    assert (E2 : (mb_size mem - total <? 2 ^ 63) = true)
      by (apply Z.ltb_lt; lia).
    rewrite E2. lia.
  - apply Z.leb_gt in E. lia.
Qed.

(** Whenever [build_iov] returns, the message covers [line_size] bytes
    from offset 0. *)
Lemma build_iov_ok_covers C iov L g r :
  0 ≤ C < 2 ^ 63 → 0 ≤ L < 2 ^ 63 → length iov = Z.to_nat MAX_IOV →
  result_of (build_iov C iov L g) = Ok r →
  length r.1 = length iov
  ∧ total_len (segments r.1 r.2) = L
  ∧ contiguous_from 0 (segments r.1 r.2).
Proof.
  intros HC HL Hlen.
  destruct (decide (C = 0)) as [->|HC0].
  - unfold build_iov. simpl. intros [= <-]. simpl.
    rewrite length_insert. split; [done|].
    destruct iov as [|s iov]; [done|]. simpl.
    rewrite wrap64_small by lia. split; [lia|done].
  - destruct (decide ((L + C - 1) / C ≤ MAX_IOV)) as [Hn|Hn].
    + destruct (decide (L = 0)) as [->|HL0].
      * unfold build_iov.
        assert (EC : (C =? 0) = false) by (apply Z.eqb_neq; lia).
        rewrite EC. cbn [negb]. rewrite (wrap64_small (0 + C - 1)) by lia.
        rewrite run_fatal_if.
        replace ((0 + C - 1) / C) with 0 by (symmetry; apply Z.div_small; lia).
        done.
      * destruct (build_iov_chunked C iov L g ltac:(lia) ltac:(lia) Hlen Hn)
          as (iov' & Hrun & Hlen' & Hseg).
        rewrite Hrun. intros [= <-]. simpl. split; [done|].
        rewrite Hseg. apply chunked_covers; lia.
    + unfold build_iov.
      assert (EC : (C =? 0) = false) by (apply Z.eqb_neq; lia).
      rewrite EC. cbn [negb]. rewrite (wrap64_small (L + C - 1)) by lia.
      rewrite run_fatal_if.
      assert (E1 : (MAX_IOV <? (L + C - 1) / C) = true)
        by (apply Z.ltb_lt; lia).
      by rewrite E1.
Qed.

(** X17: no [sendmsg] of [do_client] reaches past the device buffer.
    With [max_chunk] and [MAX_IOV * max_chunk] in the range of [ssize_t],
    a buffer size in that range, the array of [MAX_IOV] entries and
    [getline] results in the range of [ssize_t]: in a whole run, with or
    without validation and for any [max_chunk], the segments of every
    [sendmsg] lie one after the other from offset 0 and their lengths
    add up to at most [mem->size]. *)
Theorem X17_sends_stay_in_buffer (cfg : config) (mem : memory_buffer)
    (e : client_env) (g : globals) :
  0 ≤ max_chunk cfg → MAX_IOV * max_chunk cfg < 2 ^ 63 →
  mb_size mem < 2 ^ 63 → length (cl_iov e) = Z.to_nat MAX_IOV →
  Forall (λ it, sn_getline it < 2 ^ 63) (cl_iters e) →
  Forall (in_buffer mem) (trace_of (do_client cfg mem e g)).
Proof.
  intros HC HCmax Hm Hlen Hget.
  assert (HI : MAX_IOV = 1024) by reflexivity.
  assert (HP : ∀ ev, not_send ev → in_buffer mem ev) by (by intros []).
  unfold do_client.
  apply bind_invariant.
  { apply not_send_weaken; [apply HP|apply client_setup_no_send]. }
  intros [] _. cbv zeta. apply bind_invariant.
  { apply (client_loop_trace _ tx_inv); [apply HP| |].
    - intros it st ls Hin (Ht & Hls & Hl) Hlt -> Hg r Hr.
      assert (Hrange : 0 ≤ (if do_validation cfg =? 0 then sn_getline it
                            else line_size st) < 2 ^ 63).
      { destruct (do_validation cfg =? 0) eqn:Edv; [|done].
        apply Z.eqb_eq in Edv. split; [by apply Hg|].
        rewrite Forall_forall in Hget. by apply Hget. }
      rewrite clamp_line_size_min in Hr |- * by lia.
      apply build_iov_ok_covers in Hr as (Hl' & Htot & Hcont); [|lia..|done].
      split.
      + simpl. split; [done|]. rewrite Htot. lia.
      + intros Hs. unfold tx_inv. simpl. split; [|split; [lia|congruence]].
        unfold wrap64. apply Z.mod_pos_bound. lia.
    - unfold tx_inv. simpl. split; [done|]. split; [|done].
      destruct (negb (do_validation cfg =? 0)); [|lia].
      unfold sign64. rewrite wrap64_small by lia.
      assert (E : (MAX_IOV * max_chunk cfg <? 2 ^ 63) = true)
        by (apply Z.ltb_lt; lia).
      rewrite E. lia. }
  intros st _. trace_forall.
Qed.

Lemma X17_in_buffer_witness :
  Forall (in_buffer mem_small)
    (trace_of (do_client cfg_chunk4 mem_small (client_env0 (bind_answers 9))
                 g0))
  ∧ EvSendmsg [ {| iov_base := 0; iov_len := 4 |};
                {| iov_base := 4; iov_len := 2 |} ] 9
    ∈ trace_of (do_client cfg_chunk4 mem_small (client_env0 (bind_answers 9))
                  g0).
Proof.
  split.
  - apply (X17_sends_stay_in_buffer cfg_chunk4 mem_small
             (client_env0 (bind_answers 9)) g0).
    + by vm_compute.
    + by vm_compute.
    + by vm_compute.
    + reflexivity.
    + repeat constructor.
  - vm_compute.
    repeat first [apply list_elem_of_here | apply list_elem_of_further].
Defined.

(** ** The payload vector of client_dma_start *)

Lemma dma_fill_length t count i iov :
  length (dma_fill t count i iov) = length iov.
Proof.
  revert i iov. induction count as [|k IH]; intros i iov; [done|].
  cbn [dma_fill]. by rewrite IH, length_insert.
Qed.

Lemma dma_fill_lookup t count i0 (iov : list iovec) (j : nat) :
  0 ≤ i0 → (Z.to_nat i0 + count ≤ length iov)%nat →
  dma_fill t count i0 iov !! j
  = if decide (Z.to_nat i0 ≤ j < Z.to_nat i0 + count)%nat
    then Some {| iov_base := wrap64 (t + wrap64 (Z.of_nat j * CHUNK_SIZE));
                 iov_len := CHUNK_SIZE |}
    else iov !! j.
Proof.
  revert i0 iov. induction count as [|k IH]; intros i0 iov Hi Hlen.
  - cbn [dma_fill]. case_decide; [lia|done].
  - cbn [dma_fill]. rewrite IH by (rewrite ?length_insert; lia).
    replace (Z.to_nat (i0 + 1)) with (S (Z.to_nat i0)) by lia.
    repeat case_decide; try lia; try done.
    + assert (j = Z.to_nat i0) as -> by lia.
      rewrite list_lookup_insert_eq by lia. by rewrite Z2Nat.id by lia.
    + rewrite list_lookup_insert_ne by lia. done.
Qed.

Lemma dma_writesize_min total size :
  0 ≤ total < size → size < 2 ^ 63 →
  dma_writesize total size = Z.min MAX_CHUNK_SIZE (size - total).
Proof.
  intros Ht Hs. unfold dma_writesize.
  assert (HM : MAX_CHUNK_SIZE = 4194304) by reflexivity.
  rewrite (wrap64_small (total + MAX_CHUNK_SIZE)) by lia.
  rewrite (wrap64_small (size - total)) by lia.
  destruct (Z.ltb_spec (total + MAX_CHUNK_SIZE) size); lia.
Qed.

(** X18: the payload vector of an iteration of [client_dma_start].
    With [total] bytes sent of a buffer of [buffer_size] bytes
    ([total < buffer_size], sizes in the range of [ssize_t]): the number
    of segments is between 1 and [MAX_IOV], so the writes stay inside the
    array; the segments lie one after the other from offset [total]; and
    their lengths add up to the smaller of [MAX_CHUNK_SIZE] and the bytes
    that remain. *)
Theorem X18_dma_vector_tiles_remaining (total size : Z) (iov : list iovec) :
  length iov = Z.to_nat MAX_IOV → 0 ≤ total < size → size < 2 ^ 63 →
  ∃ iov' n,
    dma_build_iov total size iov = Some (iov', n)
    ∧ 1 ≤ n ≤ MAX_IOV
    ∧ length iov' = length iov
    ∧ total_len (segments iov' n) = Z.min MAX_CHUNK_SIZE (size - total)
    ∧ contiguous_from total (segments iov' n).
Proof.
  intros Hlen Ht Hs.
  assert (HM : MAX_CHUNK_SIZE = 4194304) by reflexivity.
  assert (HC : CHUNK_SIZE = 4096) by reflexivity.
  assert (HI : MAX_IOV = 1024) by reflexivity.
  unfold dma_build_iov. rewrite dma_writesize_min by done.
  set (w := Z.min MAX_CHUNK_SIZE (size - total)).
  assert (Hw : 0 < w ≤ MAX_CHUNK_SIZE) by lia.
  rewrite (wrap64_small (w + CHUNK_SIZE - 1)) by lia.
  destruct (ceil_div_bounds CHUNK_SIZE w ltac:(lia) ltac:(lia))
    as (Hn1 & Hlo & Hhi).
  set (n := (w + CHUNK_SIZE - 1) / CHUNK_SIZE) in *.
  assert (Hn : n ≤ MAX_IOV) by nia.
  assert (E1 : (n =? 0) = false) by (apply Z.eqb_neq; lia).
  assert (E2 : (Z.of_nat (length iov) <? n) = false)
    by (apply Z.ltb_ge; lia).
  assert (B1 : 0 ≤ (n - 1) * CHUNK_SIZE < w) by lia.
  assert (B2 : ∀ j, 0 ≤ j < n → 0 ≤ j * CHUNK_SIZE < 2 ^ 32) by (intros; nia).
  rewrite E1, E2. cbn [orb]. eexists _, n. split; [reflexivity|].
  split; [lia|]. split; [by rewrite length_alter, dma_fill_length|].
  assert (Hseg : segments
            (alter (set_iov_len (wrap64 (w - (n - 1) * CHUNK_SIZE)))
               (Z.to_nat (n - 1)) (dma_fill total (Z.to_nat n) 0 iov)) n
          = (λ i, {| iov_base := total + i * CHUNK_SIZE;
                     iov_len := if i =? n - 1 then w - (n - 1) * CHUNK_SIZE
                                else CHUNK_SIZE |}) <$> seqZ 0 n).
  { unfold segments. apply list_eq. intros j.
    rewrite list_lookup_fmap.
    destruct (decide (Z.of_nat j < n)) as [Hj|Hj].
    - rewrite lookup_take_lt by lia. rewrite lookup_seqZ_lt by lia.
      rewrite Z.add_0_l. cbn [fmap option_fmap option_map].
      destruct (decide (j = Z.to_nat (n - 1))) as [->|Hne].
      + rewrite list_lookup_alter_eq, dma_fill_lookup by lia.
        rewrite decide_True by lia. simpl. unfold set_iov_len. simpl.
        rewrite Z2Nat.id by lia. rewrite Z.eqb_refl.
        pose proof (B2 (n - 1) ltac:(lia)).
        rewrite (wrap64_small ((n - 1) * _)) by lia.
        rewrite !wrap64_small by lia. done.
      + rewrite list_lookup_alter_ne by lia. rewrite dma_fill_lookup by lia.
        rewrite decide_True by lia.
        assert (E : (Z.of_nat j =? n - 1) = false) by (apply Z.eqb_neq; lia).
        rewrite E. pose proof (B2 (Z.of_nat j) ltac:(lia)).
        rewrite (wrap64_small (Z.of_nat j * _)) by lia.
        rewrite wrap64_small by lia. done.
    - rewrite lookup_take_ge by lia. by rewrite lookup_seqZ_ge by lia. }
  rewrite Hseg.
  destruct (tiles CHUNK_SIZE n total (w - (n - 1) * CHUNK_SIZE)
              (λ i, {| iov_base := total + i * CHUNK_SIZE;
                       iov_len := if i =? n - 1 then w - (n - 1) * CHUNK_SIZE
                                  else CHUNK_SIZE |}) Hn1) as [H1 H2].
  - intros i Hi. simpl.
    assert (E : (i =? n - 1) = false) by (apply Z.eqb_neq; lia).
    by rewrite E.
  - simpl. by rewrite Z.eqb_refl.
  - split; [lia|done].
Qed.

Lemma X18_dma_vector_witness :
  ∃ iov' n,
    dma_build_iov 4194304 4199304 iov0 = Some (iov', n)
    ∧ 1 ≤ n ≤ MAX_IOV
    ∧ length iov' = length iov0
    ∧ total_len (segments iov' n) = Z.min MAX_CHUNK_SIZE (4199304 - 4194304)
    ∧ contiguous_from 4194304 (segments iov' n).
Proof.
  apply (X18_dma_vector_tiles_remaining 4194304 4199304 iov0);
    [reflexivity|lia|lia].
Defined.
